(** * instamatic.cred.ImgConversion: a shallow embedding

    The class [ImgConversion] of [instamatic/cred/ImgConversion.py] takes the
    buffer of frames of a continuous rotation experiment and writes them out
    as TIFF, SMV, MRC, ED3D and XDS.INP files.

    Conventions of the embedding:
    - a Python [float] is the rational it denotes, in canonical form
      ([Qc]); division by zero raises as in Python. The mean of the beam
      centers is computed as numpy does, each addition and the division
      rounded to the nearest binary64 ([round64]); the other arithmetic is
      written as the expressions of the code have it, without the rounding
      of each operation;
    - a numpy 2-D array is the list of its rows ([list (list pixel)]), the
      scalar type [pixel] and the element-wise casts being numpy's;
    - a raised exception is the [Raise] case of [result];
    - the file system is a finite map from path to file content;
    - functions imported from other modules ([read_tiff], [write_tiff],
      [write_adsc], [apply_flatfield_correction], [apply_stretch_correction],
      [find_beam_center], [XDS_template], the configuration), the casts of
      numpy and the formatting of floats are the fields of the class
      [Externals];
    - what is printed and logged is left out. *)

From Stdlib Require Import ZArith QArith Qcanon Qround Qabs String Ascii List Lia Lqa
  Permutation.
From Stdlib.Strings Require Import Byte.
From stdpp Require Import base option list strings pretty numbers gmap.

Local Open Scope Z_scope.
Local Open Scope Qc_scope.
Local Open Scope string_scope.
Local Open Scope list_scope.
Import Init.Byte.

(** ** Exceptions and results *)

Inductive exn : Type :=
| AttributeError (name : string)
| KeyError
| ZeroDivisionError
| IndexError
| ValueError
| TypeError
| IOError (msg : string).

Inductive result (A : Type) : Type :=
| Ok (a : A)
| Raise (e : exn).
Arguments Ok {A} a.
Arguments Raise {A} e.

#[global] Instance result_ret : MRet result := fun _ a => Ok a.
#[global] Instance result_bind : MBind result := fun _ _ f m =>
  match m with
  | Ok a => f a
  | Raise e => Raise e
  end.

(** ** Python numbers *)

(** A decimal literal of the source, as the rational it denotes. *)
Definition lit (q : Q) : Qc := Q2Qc q.

(** [float(i)] for an [int]. *)
Definition of_int (i : Z) : Qc := Q2Qc (inject_Z i).

(** [x / y] on floats: Python raises [ZeroDivisionError] on a zero divisor. *)
Definition py_div (x y : Qc) : result Qc :=
  if decide (y = 0) then Raise ZeroDivisionError else Ok (x / y).

(** [x > y] on floats. *)
Definition gtb (x y : Qc) : bool := bool_decide (y < x).

(** [np.pi], the binary64 closest to pi. *)
Definition np_pi : Qc := lit (884279719003555 # 281474976710656).

(** *** binary64

    The result of an operation on float64 is the binary64 nearest to the
    exact result, a tie going to the even significand: 53 bits above the
    exponent -1074 of the subnormal numbers. A result beyond the largest
    binary64, which numpy gives as [inf], is not modelled. *)

(** 2^e. *)
Definition pow2 (e : Z) : Q :=
  if decide (0 <= e)%Z then inject_Z (2 ^ e) else (/ inject_Z (2 ^ (- e)))%Q.

(** The integer nearest to [q], a tie going to the even one. *)
Definition round_half_even (q : Q) : Z :=
  let f := Qfloor q in
  match (q - inject_Z f ?= 1 # 2)%Q with
  | Lt => f
  | Eq => if Z.even f then f else (f + 1)%Z
  | Gt => (f + 1)%Z
  end.

(** The exponent of a positive number: the [k] with 2^k <= q < 2^(k+1). *)
Definition ilog2 (q : Q) : Z :=
  let k := (Z.log2 (Qnum q) - Z.log2 (Zpos (Qden q)))%Z in
  if Qle_bool (pow2 k) q then k else (k - 1)%Z.

(** The binary64 nearest to [x]: [x] in units of the last place, rounded. *)
Definition round64 (x : Qc) : Qc :=
  if decide (x = 0) then 0
  else
    let ulp := pow2 (Z.max (ilog2 (Qabs x) - 52) (-1074)) in
    Q2Qc (inject_Z (round_half_even (x / ulp)) * ulp).

(** ** Strings *)

(** ["{:05d}".format(j)] for [j >= 0]: decimal digits, padded with zeros on
    the left to width 5 (longer numbers are not cut). *)
Definition fmt_05d (j : nat) : string :=
  let s := pretty j in
  String.concat "" (replicate (5 - String.length s) "0") +:+ s.

(** ** numpy arrays *)

Abbreviation image A := (list (list A)) (only parsing).

(** [a[lo:hi]] for [0 <= lo <= hi]. *)
Definition slice {A} (lo hi : nat) (l : list A) : list A :=
  take (hi - lo) (drop lo l).

(** [a.shape] of a 2-D array; [None] when the rows differ in length (which
    is no array). *)
Definition shape {A} (a : image A) : option (nat * nat) :=
  match a with
  | [] => Some (0, 0)%nat
  | r :: rs =>
      if forallb (fun r' => Nat.eqb (length r') (length r)) rs
      then Some (length a, length r)
      else None
  end.

(** [a[r0:r1, c0:c1]]. *)
Definition slice2 {A} (r0 r1 c0 c1 : nat) (a : image A) : image A :=
  map (slice c0 c1) (slice r0 r1 a).

(** [np.zeros([h, w])] with the zero [z] of the dtype. *)
Definition np_zeros {A} (z : A) (h w : nat) : image A :=
  replicate h (replicate w z).

(** numpy's broadcasting of a block to [h] rows and [w] columns: an axis
    must have the target's length or length 1, in which case it is
    repeated; anything else is a [ValueError]. *)
Definition broadcast_to {A} (h w : nat) (src : image A) : result (image A) :=
  match shape src with
  | Some (sh, sw) =>
      if (Nat.eqb sh h || Nat.eqb sh 1) && (Nat.eqb sw w || Nat.eqb sw 1)
      then
        let rows := if Nat.eqb sh h then src else flat_map (replicate h) src in
        Ok (map (fun row =>
                   if Nat.eqb sw w then row else flat_map (replicate w) row)
                rows)
      else Raise ValueError
  | None => Raise ValueError
  end.

(** [trow[c0:c1] = srow] on one row. *)
Definition paste {A} (c0 c1 : nat) (trow srow : list A) : list A :=
  take c0 trow ++ srow ++ drop c1 trow.

(** [target[r0:r1, c0:c1] = src], the bounds within the target. *)
Definition setitem2 {A} (target : image A) (r0 r1 c0 c1 : nat) (src : image A)
  : result (image A) :=
  blk ← broadcast_to (r1 - r0) (c1 - c0) src;
  mret (take r0 target
        ++ zip_with (paste c0 c1) (slice r0 r1 target) blk
        ++ drop r1 target).

(** ** Files

    A file is created empty by [open(fn, mode)] and grows by [write]. *)

Inductive file : Type :=
| Binary (bytes : list Byte.byte)
| Text (s : string).

Abbreviation fs := (gmap string file) (only parsing).

(** A statement that may write files and may raise: the file system after
    it, and its value or its exception. *)
Definition io (A : Type) : Type := fs -> fs * result A.

#[global] Instance io_ret : MRet io := fun _ a σ => (σ, Ok a).
#[global] Instance io_bind : MBind io := fun _ _ f m σ =>
  match m σ with
  | (σ', Ok a) => f a σ'
  | (σ', Raise e) => (σ', Raise e)
  end.

Definition raise {A} (e : exn) : io A := fun σ => (σ, Raise e).

(** A computation without effect on files, inside [io]. *)
Definition lift {A} (r : result A) : io A := fun σ => (σ, r).

(** [open(fn, "wb")] and [open(fn, "w")]. *)
Definition open_wb (fn : string) : io unit :=
  fun σ => (<[fn := Binary []]> σ, Ok ()).
Definition open_w (fn : string) : io unit :=
  fun σ => (<[fn := Text ""]> σ, Ok ()).

(** [f.write(b)] on the file opened as [fn]. *)
Definition write_bytes (fn : string) (b : list Byte.byte) : io unit :=
  fun σ => (alter (fun c => match c with
                            | Binary old => Binary (old ++ b)
                            | Text _ => c
                            end) fn σ, Ok ()).
Definition write_str (fn : string) (s : string) : io unit :=
  fun σ => (alter (fun c => match c with
                            | Text old => Text (old +:+ s)
                            | Binary _ => c
                            end) fn σ, Ok ()).

(** [for i, x in enumerate(l): body], counting from [i]. *)
Fixpoint for_enumerate {A} (body : nat -> A -> io unit) (i : nat) (l : list A)
  : io unit :=
  match l with
  | [] => mret ()
  | x :: l' => body i x ;; for_enumerate body (S i) l'
  end.

(** ** The MRC header

    The byte string assigned to [self.mrc_header] in [__init__] (line 37),
    sixteen bytes a line. *)
Definition mrc_header_literal : list Byte.byte := [
  x04; x02; x00; x00; x04; x02; x00; x00; x01; x00; x00; x00; x01; x00; x00; x00;
  x00; x00; x00; x00; x00; x00; x00; x00; x00; x00; x00; x00; x04; x02; x00; x00;
  x04; x02; x00; x00; x01; x00; x00; x00; x00; x00; x00; x00; x00; x00; x00; x00;
  x00; x00; x00; x00; x00; x00; xb4; x42; x00; x00; xb4; x42; x00; x00; xb4; x42;
  x01; x00; x00; x00; x02; x00; x00; x00; x03; x00; x00; x00; x00; x00; x00; x00;
  x00; x88; x38; x46; x78; x06; x73; x41; x00; x00; x00; x00; x00; x00; x00; x00;
  x00; x00; x00; x00; x00; x00; x00; x00; x00; x00; x00; x00; x00; x00; x00; x00;
  x00; x00; x00; x00; x00; x00; x00; x00; x00; x00; x00; x00; x00; x00; x00; x00;
  x00; x00; x00; x00; x00; x00; x00; x00; x00; x00; x00; x00; x00; x00; x00; x00;
  x00; x00; x00; x00; x00; x00; x00; x00; x00; x00; x00; x00; x00; x00; x00; x00;
  x00; x00; x00; x00; x00; x00; x00; x00; x00; x00; x00; x00; x00; x00; x00; x00;
  x00; x00; x00; x00; x00; x00; x00; x00; x00; x00; x00; x00; x00; x00; x00; x00;
  x00; x00; x00; x00; x00; x00; x00; x00; x00; x00; x00; x00; x00; x00; x00; x00;
  x4d; x41; x50; x20; x44; x41; x00; x00; x00; x00; x00; x00; x01; x00; x00; x00;
  x61; x61; x61; x61; x61; x61; x61; x61; x61; x61; x61; x61; x61; x61; x61; x61;
  x61; x61; x61; x61; x61; x61; x2c; x61; x61; x61; x61; x61; x61; x61; x61; x61;
  x61; x61; x00; x00; x00; x00; x00; x00; x00; x00; x00; x00; x00; x00; x00; x00;
  x00; x00; x00; x00; x00; x00; x00; x00; x00; x00; x00; x00; x00; x00; x00; x00;
  x00; x00; x00; x00; x00; x00; x00; x00; x00; x00; x00; x00; x00; x00; x00; x00;
  x00; x00; x00; x00; x00; x00; x00; x00; x00; x00; x00; x00; x00; x00; x00; x00;
  x00; x00; x00; x00; x00; x00; x00; x00; x00; x00; x00; x00; x00; x00; x00; x00;
  x00; x00; x00; x00; x00; x00; x00; x00; x00; x00; x00; x00; x00; x00; x00; x00;
  x00; x00; x00; x00; x00; x00; x00; x00; x00; x00; x00; x00; x00; x00; x00; x00;
  x00; x00; x00; x00; x00; x00; x00; x00; x00; x00; x00; x00; x00; x00; x00; x00;
  x00; x00; x00; x00; x00; x00; x00; x00; x00; x00; x00; x00; x00; x00; x00; x00;
  x00; x00; x00; x00; x00; x00; x00; x00; x00; x00; x00; x00; x00; x00; x00; x00;
  x00; x00; x00; x00; x00; x00; x00; x00; x00; x00; x00; x00; x00; x00; x00; x00;
  x00; x00; x00; x00; x00; x00; x00; x00; x00; x00; x00; x00; x00; x00; x00; x00;
  x00; x00; x00; x00; x00; x00; x00; x00; x00; x00; x00; x00; x00; x00; x00; x00;
  x00; x00; x00; x00; x00; x00; x00; x00; x00; x00; x00; x00; x00; x00; x00; x00;
  x00; x00; x00; x00; x00; x00; x00; x00; x00; x00; x00; x00; x00; x00; x00; x00;
  x00; x00; x00; x00; x00; x00; x00; x00; x00; x00; x00; x00; x00; x00; x00; x00;
  x00; x00; x00; x00; x00; x00; x00; x00; x00; x00; x00; x00; x00; x00; x00; x00;
  x00; x00; x00; x00; x00; x00; x00; x00; x00; x00; x00; x00; x00; x00; x00; x00;
  x00; x00; x00; x00; x00; x00; x00; x00; x00; x00; x00; x00; x00; x00; x00; x00;
  x00; x00; x00; x00; x00; x00; x00; x00; x00; x00; x00; x00; x00; x00; x00; x00;
  x00; x00; x00; x00; x00; x00; x00; x00; x00; x00; x00; x00; x00; x00; x00; x00;
  x00; x00; x00; x00; x00; x00; x00; x00; x00; x00; x00; x00; x00; x00; x00; x00;
  x00; x00; x00; x00; x00; x00; x00; x00; x00; x00; x00; x00; x00; x00; x00; x00;
  x00; x00; x00; x00; x00; x00; x00; x00; x00; x00; x00; x00; x00; x00; x00; x00;
  x00; x00; x00; x00; x00; x00; x00; x00; x00; x00; x00; x00; x00; x00; x00; x00;
  x00; x00; x00; x00; x00; x00; x00; x00; x00; x00; x00; x00; x00; x00; x00; x00;
  x00; x00; x00; x00; x00; x00; x00; x00; x00; x00; x00; x00; x00; x00; x00; x00;
  x00; x00; x00; x00; x00; x00; x00; x00; x00; x00; x00; x00; x00; x00; x00; x00;
  x00; x00; x00; x00; x00; x00; x00; x00; x00; x00; x00; x00; x00; x00; x00; x00;
  x00; x00; x00; x00; x00; x00; x00; x00; x00; x00; x00; x00; x00; x00; x00; x00;
  x00; x00; x00; x00; x00; x00; x00; x00; x00; x00; x00; x00; x00; x00; x00; x00;
  x00; x00; x00; x00; x00; x00; x00; x00; x00; x00; x00; x00; x00; x00; x00; x00;
  x00; x00; x00; x00; x00; x00; x00; x00; x00; x00; x00; x00; x00; x00; x00; x00;
  x00; x00; x00; x00; x00; x00; x00; x00; x00; x00; x00; x00; x00; x00; x00; x00;
  x00; x00; x00; x00; x00; x00; x00; x00; x00; x00; x00; x00; x00; x00; x00; x00;
  x00; x00; x00; x00; x00; x00; x00; x00; x00; x00; x00; x00; x00; x00; x00; x00;
  x00; x00; x00; x00; x00; x00; x00; x00; x00; x00; x00; x00; x00; x00; x00; x00;
  x00; x00; x00; x00; x00; x00; x00; x00; x00; x00; x00; x00; x00; x00; x00; x00;
  x00; x00; x00; x00; x00; x00; x00; x00; x00; x00; x00; x00; x00; x00; x00; x00;
  x00; x00; x00; x00; x00; x00; x00; x00; x00; x00; x00; x00; x00; x00; x00; x00;
  x00; x00; x00; x00; x00; x00; x00; x00; x00; x00; x00; x00; x00; x00; x00; x00;
  x00; x00; x00; x00; x00; x00; x00; x00; x00; x00; x00; x00; x00; x00; x00; x00;
  x00; x00; x00; x00; x00; x00; x00; x00; x00; x00; x00; x00; x00; x00; x00; x00;
  x00; x00; x00; x00; x00; x00; x00; x00; x00; x00; x00; x00; x00; x00; x00; x00;
  x00; x00; x00; x00; x00; x00; x00; x00; x00; x00; x00; x00; x00; x00; x00; x00;
  x00; x00; x00; x00; x00; x00; x00; x00; x00; x00; x00; x00; x00; x00; x00; x00;
  x00; x00; x00; x00; x00; x00; x00; x00; x00; x00; x00; x00; x00; x00; x00; x00;
  x00; x00; x00; x00; x00; x00; x00; x00; x00; x00; x00; x00; x00; x00; x00; x00
]%list.

(** ** Values passed to the writers of other modules *)

(** A value of the SMV header: an [int], a [float] or a [str]. *)
Inductive adsc_value : Type :=
| VInt (z : Z)
| VFloat (q : Qc)
| VStr (s : string).

(** The keyword arguments of [XDS_template.format]. *)
Record xds_keywords : Type := {
  kw_data_begin : Z;
  kw_data_end : Z;
  kw_starting_angle : Qc;
  kw_wavelength : Qc;
  kw_dmin : Qc;
  kw_dmax : Qc;
  kw_origin_x : Qc;
  kw_origin_y : Qc;
  kw_sign : string;
  kw_detdist : Qc;
  kw_osangle : Qc;
  kw_rot_x : Qc;
  kw_rot_y : Qc;
  kw_rot_z : Qc
}.

(** ** The class *)

(** The code of other modules that the class calls, for arrays of scalars
    [pixel] and header values [hval]. *)
Class Externals (pixel hval : Type) : Type := {
  (** [config.diffraction_pixeldimensions]: camera length to pixel size. *)
  diffraction_pixeldimensions : gmap Z Qc;
  (** [os.path.dirname(os.path.realpath(__file__))] and [os.path.join]. *)
  curdir : string;
  os_path_join : string -> string -> string;
  (** [instamatic.formats]. *)
  read_tiff : string -> result (image pixel * gmap string hval);
  write_tiff : string -> image pixel -> gmap string hval -> io unit;
  write_adsc : string -> image pixel -> list (string * adsc_value) -> io unit;
  (** [instamatic.processing] and [instamatic.tools]. *)
  apply_flatfield_correction : image pixel -> image pixel -> image pixel;
  apply_stretch_correction : image pixel -> Qc * Qc -> Qc -> Qc -> image pixel;
  find_beam_center : image pixel -> Z -> Qc * Qc;
  (** numpy: casts of a scalar, the zero of [np.ushort], [ndarray.tobytes]. *)
  np_ushort : pixel -> pixel;
  np_int16 : pixel -> pixel;
  ushort_zero : pixel;
  tobytes : image pixel -> list Byte.byte;
  (** [str(x)] of a header value and of a number, ["%.2f" % x], [math.cos]. *)
  str_hval : hval -> string;
  str_float : Qc -> string;
  fmt_2f : Qc -> string;
  cos : Qc -> Qc;
  (** [XDS_template.format] applied to its keyword arguments. *)
  XDS_template_format : xds_keywords -> string
}.

Section ImgConversion.

Context {pixel hval : Type} {ext : Externals pixel hval}.

Abbreviation header := (gmap string hval) (only parsing).
Abbreviation frame := (list (list pixel) * gmap string hval)%type (only parsing).

Record ImgConversion : Type := {
  pxd : gmap Z Qc;
  flatfield : image pixel;
  mrc_header : list Byte.byte;
  headers : list header;
  data : list (image pixel);
  pixelsize : Qc;
  physical_pixelsize : Qc;
  wavelength : Qc;
  beam_center : option (Qc * Qc);
  distance : Qc;
  osangle : Qc;
  startangle : Qc;
  endangle : Qc;
  rotation_angle : Qc;
  dmax : Qc;
  dmin : Qc
}.

(** [np.add.reduce] along the first axis, one column of it: the rows are
    added to the first one in their order, each addition rounded. *)
Definition np_add_reduce (column : list Qc) : Qc :=
  match column with
  | [] => 0
  | x :: rest => fold_left (fun acc c => round64 (acc + c)) rest x
  end.

(** [np.mean(centers, axis=0)] on a list of length-2 arrays: the sum of each
    column, divided by the number of rows, the division rounded. On an
    empty list numpy returns the scalar [nan], here [None]. *)
Definition np_mean_axis0 (centers : list (Qc * Qc)) : option (Qc * Qc) :=
  match centers with
  | [] => None
  | _ =>
      let n := of_int (Z.of_nat (length centers)) in
      Some (round64 (np_add_reduce (map fst centers) / n),
            round64 (np_add_reduce (map snd centers) / n))
  end.

(** [get_average_beam_center], which reads [self.data] only. *)
Definition get_average_beam_center (data : list (image pixel))
  : option (Qc * Qc) :=
  np_mean_axis0 (map (fun img => find_beam_center img 10) data).

(** The loop [while len(buffer) != 0] of [__init__], on the state
    [(buffer, self.headers, self.data)]. *)
Fixpoint drain (ff : image pixel) (buffer : list frame)
    (hs : list header) (ds : list (image pixel))
  : list frame * list header * list (image pixel) :=
  match buffer with
  | [] => (buffer, hs, ds)
  | (img, h) :: buffer' =>
      drain ff buffer' (hs ++ [h]) (ds ++ [apply_flatfield_correction img ff])
  end.

(** [ImgConversion.__init__]: the caller's buffer after the call, and the
    instance or the exception. *)
Definition __init__ (buffer : list frame) (camera_length : Z)
    (osangle startangle endangle rotation_angle : Qc)
    (resolution_range : Qc * Qc) (flatfield : string)
  : list frame * result ImgConversion :=
  let pxd := diffraction_pixeldimensions in
  match read_tiff (os_path_join curdir flatfield) with
  | Raise e => (buffer, Raise e)
  | Ok (flatfield, _) =>
      let '(buffer, headers, data) := drain flatfield buffer [] [] in
      (buffer,
       pixelsize ← match pxd !! camera_length with
                   | Some p => Ok p
                   | None => Raise KeyError
                   end;
       let physical_pixelsize := lit 0.055 in
       let wavelength := lit 0.025080 in
       let beam_center := get_average_beam_center data in
       distance ← py_div (lit 483.89 * lit 0.00412) pixelsize;
       Ok {| pxd := pxd; flatfield := flatfield;
             mrc_header := mrc_header_literal;
             headers := headers; data := data;
             pixelsize := pixelsize;
             physical_pixelsize := physical_pixelsize;
             wavelength := wavelength;
             beam_center := beam_center;
             distance := distance;
             osangle := osangle; startangle := startangle;
             endangle := endangle; rotation_angle := rotation_angle;
             dmax := resolution_range.1; dmin := resolution_range.2 |})
  end.

(** *** Attributes by name

    What [self.name] evaluates to on an instance that [__init__] has
    built: the sixteen attributes it assigns, the methods of the class, and
    [AttributeError] for the other names that a program can write down
    without the double underscores of the attributes of every object. *)

Inductive attribute : Type :=
| ATable (t : gmap Z Qc)
| AImage (a : image pixel)
| ABytes (b : list Byte.byte)
| AHeaders (hs : list header)
| AImages (l : list (image pixel))
| AFloat (q : Qc)
| ACenter (c : option (Qc * Qc))
| AMethod (name : string).

Definition getattr (self : ImgConversion) (name : string) : result attribute :=
  if decide (name = "pxd") then Ok (ATable (pxd self))
  else if decide (name = "flatfield") then Ok (AImage (flatfield self))
  else if decide (name = "mrc_header") then Ok (ABytes (mrc_header self))
  else if decide (name = "headers") then Ok (AHeaders (headers self))
  else if decide (name = "data") then Ok (AImages (data self))
  else if decide (name = "pixelsize") then Ok (AFloat (pixelsize self))
  else if decide (name = "physical_pixelsize")
       then Ok (AFloat (physical_pixelsize self))
  else if decide (name = "wavelength") then Ok (AFloat (wavelength self))
  else if decide (name = "beam_center") then Ok (ACenter (beam_center self))
  else if decide (name = "distance") then Ok (AFloat (distance self))
  else if decide (name = "osangle") then Ok (AFloat (osangle self))
  else if decide (name = "startangle") then Ok (AFloat (startangle self))
  else if decide (name = "endangle") then Ok (AFloat (endangle self))
  else if decide (name = "rotation_angle")
       then Ok (AFloat (rotation_angle self))
  else if decide (name = "dmax") then Ok (AFloat (dmax self))
  else if decide (name = "dmin") then Ok (AFloat (dmin self))
  else if decide (name ∈ ["__init__"; "get_average_beam_center";
                          "writeTiff"; "writeIMG"; "fixDistortion";
                          "MRCCreator"; "ED3DCreator"; "XDSINPCreator"])
       then Ok (AMethod name)
  else Raise (AttributeError name).

(** [c[k]] on the beam center: the scalar [nan] cannot be indexed. *)
Definition center_item (c : option (Qc * Qc)) (k : nat) : result Qc :=
  match c with
  | Some (x, y) =>
      match k with
      | 0%nat => Ok x
      | 1%nat => Ok y
      | _ => Raise IndexError
      end
  | None => Raise IndexError
  end.

(** [h[key]] on a frame header. *)
Definition header_item (h : header) (key : string) : result hval :=
  match h !! key with
  | Some v => Ok v
  | None => Raise KeyError
  end.

(** *** writeTiff *)

(** The body of the loop of [writeTiff]. *)
Definition writeTiff_frame (path : string) (i : nat) (f : frame) : io unit :=
  let '(img, h) := f in
  let j := (i + 1)%nat in
  let fn := os_path_join path (fmt_05d j +:+ ".tiff") in
  write_tiff fn img h.

Definition writeTiff (self : ImgConversion) (path : string) : io unit :=
  for_enumerate (writeTiff_frame path) 0 (zip (data self) (headers self)).

(** *** writeIMG *)

(** Lines 83 to 89: the re-packing of a 516 rows image into 512 x 512. *)
Definition repack (img : image pixel) : result (image pixel) :=
  if Nat.eqb (length img) 516 then
    let newimg := np_zeros ushort_zero 512 512 in
    newimg ← setitem2 newimg 0 256 0 256 (slice2 0 256 0 256 img);
    newimg ← setitem2 newimg 256 512 0 256
               (map (slice 0 256) (drop 260 img));
    newimg ← setitem2 newimg 0 256 256 512
               (map (drop 260) (slice 0 256 img));
    newimg ← setitem2 newimg 256 512 256 512
               (map (drop 260) (drop 260 img));
    mret newimg
  else mret img.

(** The body of the loop of [writeIMG]. *)
Definition writeIMG_frame (self : ImgConversion) (path : string)
    (i : nat) (f : frame) : io unit :=
  let '(img, h) := f in
  let j := (i + 1)%nat in
  let img := map (map np_ushort) img in
  img ← lift (repack img);
  date ← lift (header_item h "ImageGetTime");
  time ← lift (header_item h "ImageExposureTime");
  x ← lift (center_item (beam_center self) 0);
  y ← lift (center_item (beam_center self) 1);
  let header :=
    [ ("HEADER_BYTES", VInt 512);
      ("DIM", VInt 2);
      ("BYTE_ORDER", VStr "little_endian");
      ("TYPE", VStr "unsigned_short");
      ("SIZE1", VInt 512);
      ("SIZE2", VInt 512);
      ("PIXEL_SIZE", VFloat (physical_pixelsize self));
      ("BIN", VStr "1x1");
      ("BIN_TYPE", VStr "HW");
      ("ADC", VStr "fast");
      ("CREV", VInt 1);
      ("BEAMLINE", VStr "TIMEPIX_SU");
      ("DETECTOR_SN", VInt 901);
      ("DATE", VStr (str_hval date));
      ("TIME", VStr (str_hval time));
      ("DISTANCE", VStr (fmt_2f (distance self * lit 1.1)));
      ("TWOTHETA", VFloat (lit 0.00));
      ("PHI", VFloat (startangle self));
      ("OSC_START", VFloat (startangle self));
      ("OSC_RANGE", VFloat (osangle self));
      ("WAVELENGTH", VFloat (wavelength self));
      ("BEAM_CENTER_X", VStr (fmt_2f x));
      ("BEAM_CENTER_Y", VStr (fmt_2f y));
      ("DENZO_X_BEAM", VStr (fmt_2f (x * physical_pixelsize self)));
      ("DENZO_Y_BEAM", VStr (fmt_2f (y * physical_pixelsize self))) ] in
  let fn := os_path_join path (fmt_05d j +:+ ".img") in
  write_adsc fn img header.

(** [writeIMG]: line 75 reads [self.data] and then [self.header]. *)
Definition writeIMG (self : ImgConversion) (path : string) : io unit :=
  hs ← lift (getattr self "header");
  match hs with
  | AHeaders hs =>
      for_enumerate (writeIMG_frame self path) 0 (zip (data self) hs)
  | _ => raise TypeError
  end.

(** *** fixDistortion *)

Definition fixDistortion (image : list (list pixel))
    (directXY : option (Qc * Qc)) : result (list (list pixel)) :=
  let center := directXY in
  x ← center_item directXY 0;
  y ← center_item directXY 1;
  c0 ← center_item center 0;
  c1 ← center_item center 1;
  let c0 := if gtb x (of_int 255) then c0 + of_int 1 else c0 in
  let c0 := if gtb x (of_int 256) then c0 + of_int 2 else c0 in
  let c0 := if gtb x (of_int 257) then c0 + of_int 1 else c0 in
  let c1 := if gtb y (of_int 255) then c1 + of_int 1 else c1 in
  let c1 := if gtb y (of_int 256) then c1 + of_int 2 else c1 in
  let c1 := if gtb y (of_int 257) then c1 + of_int 1 else c1 in
  let azimuth := - lit 6.61 in
  let amplitude := lit 2.43 in
  mret (apply_stretch_correction image (c0, c1) azimuth amplitude).

(** *** MRCCreator *)

(** The body of the loop of [MRCCreator]. *)
Definition MRCCreator_frame (self : ImgConversion) (path : string)
    (i : nat) (img : image pixel) : io unit :=
  let j := (i + 1)%nat in
  let fn := os_path_join path (fmt_05d j +:+ ".img") in
  let img := reverse (map (map np_int16) img) in
  img ← lift (fixDistortion img (beam_center self));
  open_wb fn ;;
  write_bytes fn (mrc_header self) ;;
  write_bytes fn (tobytes img).

Definition MRCCreator (self : ImgConversion) (path : string) : io unit :=
  for_enumerate (MRCCreator_frame self path) 0 (data self).

(** *** ED3DCreator *)

Definition ED3DCreator (self : ImgConversion) (path : string)
    (rotation_angle : Qc) : io unit :=
  let ed3d := os_path_join path "1.ed3d" in
  let nl := String "010" "" in
  open_w ed3d ;;
  write_str ed3d ("WAVELENGTH    " +:+ str_float (wavelength self) +:+ nl) ;;
  write_str ed3d ("ROTATIONAXIS    " +:+ str_float rotation_angle +:+ nl) ;;
  write_str ed3d ("CCDPIXELSIZE    " +:+ str_float (pixelsize self) +:+ nl) ;;
  write_str ed3d ("GONIOTILTSTEP    " +:+ str_float (osangle self) +:+ nl) ;;
  write_str ed3d ("BEAMTILTSTEP    0" +:+ nl) ;;
  write_str ed3d ("BEAMTILTRANGE    0.000" +:+ nl) ;;
  write_str ed3d ("STRETCHINGMP    0.0" +:+ nl) ;;
  write_str ed3d ("STRETCHINGAZIMUTH    0.0" +:+ nl) ;;
  write_str ed3d nl ;;
  write_str ed3d ("FILELIST" +:+ nl) ;;
  for_enumerate
    (fun _ i =>
       let j := (i + 1)%nat in
       let fn := os_path_join path (fmt_05d j +:+ ".img") in
       let ang :=
         str_float (startangle self + osangle self * of_int (Z.of_nat i)) in
       write_str ed3d
         ("FILE " +:+ fn +:+ "    " +:+ ang +:+ "    0    " +:+ ang +:+ nl))
    0 (seq 0 (length (data self))) ;;
  write_str ed3d "ENDFILELIST".

(** *** XDSINPCreator *)

Definition XDSINPCreator (self : ImgConversion) (pathsmv : string)
    (rotation_angle : Qc) : io unit :=
  let indend := Z.of_nat (length (data self)) in
  origin_x ← lift (center_item (beam_center self) 0);
  origin_y ← lift (center_item (beam_center self) 1);
  let half_pi := np_pi / of_int 2 in
  let s := XDS_template_format
    {| kw_data_begin := 1;
       kw_data_end := indend;
       kw_starting_angle := startangle self;
       kw_wavelength := wavelength self;
       kw_dmin := dmin self;
       kw_dmax := dmax self;
       kw_origin_x := origin_x;
       kw_origin_y := origin_y;
       kw_sign := "+";
       kw_detdist := distance self;
       kw_osangle := osangle self;
       kw_rot_x := cos rotation_angle;
       kw_rot_y := cos (rotation_angle + half_pi);
       kw_rot_z := lit 0.0 |} in
  let f := os_path_join pathsmv "XDS.INP" in
  open_w f ;;
  write_str f s.

(** ** Vocabulary of the properties *)

(** Sum and arithmetic mean of a list of numbers. *)
Definition Qc_sum (l : list Qc) : Qc := foldr Qcplus 0 l.
Definition arithmetic_mean (l : list Qc) : Qc :=
  Qc_sum l / of_int (Z.of_nat (length l)).

(** The adjustment of one coordinate of the center: 1 above 255, 2 more
    above 256, 1 more above 257. *)
Definition step_adjust (v : Qc) : Qc :=
  v + (if gtb v (of_int 255) then of_int 1 else 0)
    + (if gtb v (of_int 256) then of_int 2 else 0)
    + (if gtb v (of_int 257) then of_int 1 else 0).

(** An image without its rows and columns 256 to 259. *)
Definition without_seam (img : image pixel) : image pixel :=
  map (fun row => take 256 row ++ drop 260 row) (take 256 img ++ drop 260 img).

(** The instance with another value stored as [self.rotation_angle]. *)
Definition with_rotation_angle (self : ImgConversion) (r : Qc)
  : ImgConversion :=
  {| pxd := pxd self; flatfield := flatfield self;
     mrc_header := mrc_header self;
     headers := headers self; data := data self;
     pixelsize := pixelsize self;
     physical_pixelsize := physical_pixelsize self;
     wavelength := wavelength self;
     beam_center := beam_center self;
     distance := distance self;
     osangle := osangle self; startangle := startangle self;
     endangle := endangle self; rotation_angle := r;
     dmax := dmax self; dmin := dmin self |}.

(** The instance with another value stored as [self.endangle]. *)
Definition with_endangle (self : ImgConversion) (r : Qc) : ImgConversion :=
  {| pxd := pxd self; flatfield := flatfield self;
     mrc_header := mrc_header self;
     headers := headers self; data := data self;
     pixelsize := pixelsize self;
     physical_pixelsize := physical_pixelsize self;
     wavelength := wavelength self;
     beam_center := beam_center self;
     distance := distance self;
     osangle := osangle self; startangle := startangle self;
     endangle := r; rotation_angle := rotation_angle self;
     dmax := dmax self; dmin := dmin self |}.

(** The name of the file of frame [i] (0-based), with extension [ext]. *)
Definition frame_name (path : string) (i : nat) (extension : string) : string :=
  os_path_join path (fmt_05d (i + 1) +:+ extension).

(** The MRC file of an image: header, then the bytes of the image cast to
    int16, flipped and corrected around the adjusted center. *)
Definition mrc_file (self : ImgConversion) (c : Qc * Qc) (img : image pixel)
  : file :=
  Binary (mrc_header self
          ++ tobytes (apply_stretch_correction
                        (reverse (map (map np_int16) img))
                        (step_adjust c.1, step_adjust c.2)
                        (- lit 6.61) (lit 2.43))).

(** The files of the frames [l], numbered from [k], added to [σ]. *)
Definition mrc_files (self : ImgConversion) (path : string) (c : Qc * Qc)
    (k : nat) (l : list (list (list pixel))) (σ : gmap string file)
  : gmap string file :=
  foldl (fun σ p => <[frame_name path p.1 ".img" := mrc_file self c p.2]> σ)
        σ (zip (seq k (length l)) l).

(** The angle and the [FILE] line of frame [i] in the ED3D file. *)
Definition ed3d_angle (self : ImgConversion) (i : nat) : Qc :=
  startangle self + osangle self * of_int (Z.of_nat i).
Definition ed3d_line (self : ImgConversion) (path : string) (i : nat)
  : string :=
  "FILE " +:+ frame_name path i ".img" +:+ "    "
  +:+ str_float (ed3d_angle self i) +:+ "    0    "
  +:+ str_float (ed3d_angle self i) +:+ String "010" "".

(** The lines of the ED3D file before the file list. *)
Definition ed3d_preamble (self : ImgConversion) (rotation_angle : Qc)
  : string :=
  let nl := String "010" "" in
  "WAVELENGTH    " +:+ str_float (wavelength self) +:+ nl
  +:+ "ROTATIONAXIS    " +:+ str_float rotation_angle +:+ nl
  +:+ "CCDPIXELSIZE    " +:+ str_float (pixelsize self) +:+ nl
  +:+ "GONIOTILTSTEP    " +:+ str_float (osangle self) +:+ nl
  +:+ "BEAMTILTSTEP    0" +:+ nl
  +:+ "BEAMTILTRANGE    0.000" +:+ nl
  +:+ "STRETCHINGMP    0.0" +:+ nl
  +:+ "STRETCHINGAZIMUTH    0.0" +:+ nl
  +:+ nl
  +:+ "FILELIST" +:+ nl.

(** [writeTiff] fails at frame [i] with exception [e], leaving the files
    [σ']: the frames before [i] are written, and [write_tiff] raises [e] on
    frame [i]. *)
Definition writeTiff_fails_at (self : ImgConversion) (path : string)
    (σ : fs) (i : nat) (e : exn) (σ' : fs) : Prop :=
  exists img h σi,
    zip (data self) (headers self) !! i = Some (img, h)
    /\ for_enumerate (writeTiff_frame path) 0
         (take i (zip (data self) (headers self))) σ = (σi, Ok ())
    /\ write_tiff (frame_name path i ".tiff") img h σi = (σ', Raise e).

End ImgConversion.

(** ** A small environment to run the definitions on

    Pixels are integers and header values are strings; [write_tiff] and
    [write_adsc] create an empty file as long as the disk holds fewer than
    [quota] files, and fail with the error of a full disk otherwise. *)

Definition disk_full : exn := IOError "[Errno 28] No space left on device".

Definition quota_write (quota : nat) (fn : string) : io unit :=
  fun σ =>
    if decide (size σ < quota)%nat
    then (<[fn := Binary []]> σ, Ok ())
    else (σ, Raise disk_full).

Definition demo (quota : nat) (table : gmap Z Qc) : Externals Z string := {|
  diffraction_pixeldimensions := table;
  curdir := "/opt/instamatic/cred";
  os_path_join := fun a b => a +:+ "/" +:+ b;
  read_tiff := fun _ => Ok ([[1%Z]], ∅);
  write_tiff := fun fn _ _ => quota_write quota fn;
  write_adsc := fun fn _ _ => quota_write quota fn;
  apply_flatfield_correction := fun img _ => img;
  apply_stretch_correction := fun img _ _ _ => img;
  find_beam_center := fun img _ =>
    match img with
    | (x :: y :: _) :: _ => (of_int x, of_int y)
    | _ => (0, 0)
    end;
  np_ushort := fun z => (z mod 65536)%Z;
  np_int16 := fun z => ((z + 32768) mod 65536 - 32768)%Z;
  ushort_zero := 0%Z;
  tobytes := fun _ => [];
  str_hval := fun s => s;
  str_float := fun _ => "?";
  fmt_2f := fun _ => "?";
  cos := fun x => x;
  XDS_template_format := fun _ => "XDS"
|}.

(** The same environment without the flatfield file on disk. *)
Definition demo_without_flatfield : Externals Z string := {|
  diffraction_pixeldimensions := diffraction_pixeldimensions (Externals := demo 9 ∅);
  curdir := curdir (Externals := demo 9 ∅);
  os_path_join := os_path_join (Externals := demo 9 ∅);
  read_tiff := fun fn => Raise (IOError fn);
  write_tiff := write_tiff (Externals := demo 9 ∅);
  write_adsc := write_adsc (Externals := demo 9 ∅);
  apply_flatfield_correction :=
    apply_flatfield_correction (Externals := demo 9 ∅);
  apply_stretch_correction := apply_stretch_correction (Externals := demo 9 ∅);
  find_beam_center := find_beam_center (Externals := demo 9 ∅);
  np_ushort := np_ushort (Externals := demo 9 ∅);
  np_int16 := np_int16 (Externals := demo 9 ∅);
  ushort_zero := ushort_zero (Externals := demo 9 ∅);
  tobytes := tobytes (Externals := demo 9 ∅);
  str_hval := str_hval (Externals := demo 9 ∅);
  str_float := str_float (Externals := demo 9 ∅);
  fmt_2f := fmt_2f (Externals := demo 9 ∅);
  cos := cos (Externals := demo 9 ∅);
  XDS_template_format := XDS_template_format (Externals := demo 9 ∅)
|}.

(** A table with the pixel sizes 0.00412, 1.0 and 0.0. *)
Definition demo_table : gmap Z Qc :=
  <[250%Z := lit 0.00412]> (<[1%Z := lit 1.0]> (<[0%Z := lit 0.0]> ∅)).

(** Three frames whose first row starts with the beam center. *)
Definition demo_buffer : list (list (list Z) * gmap string string) :=
  [ ([[100; 120]; [3; 4]]%Z, {["ImageGetTime" := "t0"]});
    ([[101; 121]; [5; 6]]%Z, {["ImageGetTime" := "t1"]});
    ([[102; 119]; [7; 8]]%Z, {["ImageGetTime" := "t2"]}) ].

(** The instance that the construction builds from [demo_buffer] with
    camera length 250, osangle 0.5, startangle 10.0, endangle 11.0 and
    rotation angle 0.9. *)
Definition demo_self : @ImgConversion Z string :=
  @Build_ImgConversion Z string
    demo_table                                  (* pxd *)
    [[1%Z]]                                     (* flatfield *)
    mrc_header_literal                          (* mrc_header *)
    (map snd demo_buffer)                       (* headers *)
    (map fst demo_buffer)                       (* data *)
    (lit 0.00412)                               (* pixelsize *)
    (lit 0.055)                                 (* physical_pixelsize *)
    (lit 0.025080)                              (* wavelength *)
    (np_mean_axis0 [(of_int 100, of_int 120); (of_int 101, of_int 121);
                    (of_int 102, of_int 119)])  (* beam_center *)
    (lit 483.89 * lit 0.00412 / lit 0.00412)    (* distance *)
    (lit 0.5) (lit 10.0) (lit 11.0)             (* osangle, start, end *)
    (lit 0.9)                                   (* rotation_angle *)
    (lit 20) (lit 0.8).                         (* dmax, dmin *)

(** The construction of the instance, from the frames [buffer]. *)
Definition demo_init (quota : nat) (camera_length : Z)
    (buffer : list (list (list Z) * gmap string string)) :=
  __init__ (ext := demo quota demo_table) buffer camera_length
    (lit 0.5) (lit 10.0) (lit 11.0) (lit 0.9) (lit 20, lit 0.8)
    "flatfield.tiff".

(** A 516 x 516 image with the pixel value 516 r + c at row r, column c. *)
Definition demo_516 : list (list Z) :=
  map (fun r => map (fun c => (516 * Z.of_nat r + Z.of_nat c)%Z) (seq 0 516))
      (seq 0 516).

(** An image of 516 rows that are 100 long. *)
Definition demo_516_narrow : list (list Z) := replicate 516 (replicate 100 7%Z).

(** The same environment with a beam center in tenths of a pixel: the
    float nearest to a tenth of the first two pixels of the first row. *)
Definition demo_tenths : Externals Z string := {|
  diffraction_pixeldimensions := demo_table;
  curdir := curdir (Externals := demo 9 ∅);
  os_path_join := os_path_join (Externals := demo 9 ∅);
  read_tiff := read_tiff (Externals := demo 9 ∅);
  write_tiff := write_tiff (Externals := demo 9 ∅);
  write_adsc := write_adsc (Externals := demo 9 ∅);
  apply_flatfield_correction :=
    apply_flatfield_correction (Externals := demo 9 ∅);
  apply_stretch_correction := apply_stretch_correction (Externals := demo 9 ∅);
  find_beam_center := fun img _ =>
    match img with
    | (x :: y :: _) :: _ =>
        (round64 (of_int x / of_int 10), round64 (of_int y / of_int 10))
    | _ => (0, 0)
    end;
  np_ushort := np_ushort (Externals := demo 9 ∅);
  np_int16 := np_int16 (Externals := demo 9 ∅);
  ushort_zero := ushort_zero (Externals := demo 9 ∅);
  tobytes := tobytes (Externals := demo 9 ∅);
  str_hval := str_hval (Externals := demo 9 ∅);
  str_float := str_float (Externals := demo 9 ∅);
  fmt_2f := fmt_2f (Externals := demo 9 ∅);
  cos := cos (Externals := demo 9 ∅);
  XDS_template_format := XDS_template_format (Externals := demo 9 ∅)
|}.

(** Three frames with the beam centers (0.1, 0.3), (0.2, 0.2) and
    (0.3, 0.1). *)
Definition demo_tenths_buffer : list (list (list Z) * gmap string string) :=
  [ ([[1; 3]]%Z, ∅); ([[2; 2]]%Z, ∅); ([[3; 1]]%Z, ∅) ].

(** * instamatic.io: a fresh working directory

    [get_new_work_subdirectory] of [instamatic/io.py]. The disk is the set
    of the paths that exist; a [Path] is the string it prints as. The
    configuration and [pathlib] are the fields of [Workspace]; that
    creating a directory can fail is left out. *)

Class Workspace : Type := {
  (** [config.cfg.work_directory]. *)
  work_directory : string;
  (** [Path(drc) / name]. *)
  path_join : string -> string -> string;
  (** The ancestors of a path, which [mkdir(parents=True)] creates with it. *)
  path_parents : string -> list string
}.

Section Workspace.

Context {ws : Workspace}.

(** [f'{stem}_{number}']. *)
Definition subdirectory_name (stem : string) (number : Z) : string :=
  stem +:+ "_" +:+ pretty number.

(** [path.mkdir(exist_ok=True, parents=True)]. *)
Definition mkdir_parents (path : string) (disk : gset string) : gset string :=
  disk ∪ list_to_set (path_parents path) ∪ {[path]}.

(** The loop [while path.exists()], for at most [fuel] tests of a path;
    [None] when they all exist. *)
Fixpoint first_free_path (fuel : nat) (disk : gset string)
    (drc stem : string) (number : Z) : option string :=
  match fuel with
  | O => None
  | S fuel' =>
      let path := path_join drc (subdirectory_name stem number) in
      if decide (path ∈ disk)
      then first_free_path fuel' disk drc stem (number + 1)
      else Some path
  end.

(** [get_new_work_subdirectory(stem, drc, number, mkdir)]: the disk after
    the call and the path returned. [drc] is [None] or a string, and
    [not drc] holds of [None] and of the empty string. *)
Definition get_new_work_subdirectory (fuel : nat) (stem : string)
    (drc : option string) (number : Z) (mkdir : bool) (disk : gset string)
  : option (gset string * string) :=
  let drc := match drc with
             | None => work_directory
             | Some d => if decide (d = "") then work_directory else d
             end in
  path ← first_free_path fuel disk drc stem number;
  let disk := if mkdir then mkdir_parents path disk else disk in
  Some (disk, path).

End Workspace.

(** A workspace with POSIX paths, seen from the root. *)
Definition demo_workspace : Workspace := {|
  work_directory := "/work";
  path_join := fun d name => d +:+ "/" +:+ name;
  path_parents := fun _ => ["/work"]
|}.

(** * instamatic.calibrate.calibrate_stagematrix: the stage matrix

    [calibrate_stage_from_stagepos] and [calibrate_stage]. The microscope
    is a state [hw] that the methods of [ctrl] read and change; the files
    are the map used above. The methods of [ctrl], the configuration, the
    cross correlation, the fit, [yaml.dump], the plot and numpy's [arange]
    on floats are the fields of [Microscope]. What is printed is left
    out, as is the header that [getImage] returns with the image, which the
    code does not use. *)

Module Stage.

(** The exceptions of this module: [ValueError] with the message of line
    182, [KeyError], [UnboundLocalError], and what the microscope and the
    libraries raise. *)
Inductive error : Type :=
| InvalidPixelsize (mode : string) (mag : Z) (pixelsize : Qc)
| MissingKey
| UnboundLocal (name : string)
| Failure (what : string).

Inductive outcome (A : Type) : Type :=
| Done (a : A)
| Raised (e : error).
Arguments Done {A} a.
Arguments Raised {A} e.

(** A statement on the microscope and the files. *)
Definition tem (hw A : Type) : Type :=
  hw * gmap string file -> hw * gmap string file * outcome A.

#[global] Instance tem_ret {hw} : MRet (tem hw) := fun _ a w => (w, Done a).
#[global] Instance tem_bind {hw} : MBind (tem hw) := fun _ _ f m w =>
  match m w with
  | (w', Done a) => f a w'
  | (w', Raised e) => (w', Raised e)
  end.

Definition throw {hw A} (e : error) : tem hw A := fun w => (w, Raised e).

(** A method of [ctrl], and a function that writes a file. *)
Definition on_hw {hw A} (c : hw -> hw * outcome A) : tem hw A :=
  fun w => let '(h, r) := c w.1 in ((h, w.2), r).
Definition on_files {hw A}
    (c : gmap string file -> gmap string file * outcome A) : tem hw A :=
  fun w => let '(σ, r) := c w.2 in ((w.1, σ), r).
Definition pure {hw A} (r : outcome A) : tem hw A := fun w => (w, r).

(** The dictionary [params] of one position. *)
Record params : Type := {
  p_dx : Qc; p_dy : Qc; p_j : nat;
  p_stage_x : Qc; p_stage_y : Qc; p_stage_z : Qc
}.

(** The dictionary [d] that is dumped as [log.yaml]. *)
Record log (translation matrix vector : Type) : Type := {
  d_n_ranges : nat;
  d_stage_x : Qc;
  d_stage_y : Qc;
  d_magnification : Z;
  d_mode : string;
  d_ranges : gmap nat params;
  d_translations : list translation;
  d_stage_shifts : list (Qc * Qc);
  d_r : matrix;
  d_t : vector
}.
Arguments d_n_ranges {_ _ _} _.
Arguments d_ranges {_ _ _} _.
Arguments d_stage_shifts {_ _ _} _.
Arguments d_translations {_ _ _} _.

Class Microscope (hw img translation matrix vector : Type) : Type := {
  (** [config.camera.dimensions] and
      [config.calibration[mode][key][mag]]. *)
  camera_dimensions : Z * Z;
  calibration : gmap string (gmap string (gmap Z Qc));
  (** [ctrl.mode] and [ctrl.magnification.value], read and assigned. *)
  mode_get : hw -> hw * outcome string;
  mode_set : string -> hw -> hw * outcome unit;
  magnification_get : hw -> hw * outcome Z;
  magnification_set : Z -> hw -> hw * outcome unit;
  (** [ctrl.stage.xy], read and assigned; [ctrl.stage.x], [.y], [.z];
      [ctrl.stage.set_xy_with_backlash_correction(x, y)]. *)
  stage_xy_get : hw -> hw * outcome (Qc * Qc);
  stage_xy_set : Qc * Qc -> hw -> hw * outcome unit;
  stage_x_get : hw -> hw * outcome Qc;
  stage_y_get : hw -> hw * outcome Qc;
  stage_z_get : hw -> hw * outcome Qc;
  set_xy_with_backlash_correction : Qc -> Qc -> hw -> hw * outcome unit;
  (** [ctrl.getImage()], without the header. *)
  getImage : hw -> hw * outcome img;
  (** [Path(drc) / name], [write_tiff(path, img)] and
      [yaml.dump(d, open(path, 'w'))]. *)
  drc_join : string -> string -> string;
  write_tiff_image :
    string -> img -> gmap string file -> gmap string file * outcome unit;
  yaml_dump :
    string -> log translation matrix vector ->
    gmap string file -> gmap string file * outcome unit;
  (** [register_translation(last_image, img)], its first result, and
      [fit_affine_transformation(stage_shifts, translations)], its [r] and
      [t]. *)
  register_translation : img -> img -> outcome translation;
  fit_affine_transformation :
    list (Qc * Qc) -> list translation -> outcome (matrix * vector);
  (** The plot of the fit, which inverts the matrix. *)
  plot_fit : matrix -> list (Qc * Qc) -> list translation -> outcome unit;
  (** [np.arange(start, stop, step)] on floats. *)
  np_arange : Qc -> Qc -> Qc -> outcome (list Qc)
}.

Section Calibration.

Context {hw img translation matrix vector : Type}
        {scope : Microscope hw img translation matrix vector}.

(** The local variables that the loops of [calibrate_stage_from_stagepos]
    assign; [last_params] is [None] as long as [params] is unbound. *)
Record locals : Type := {
  last_image : option img;
  last_params : option params;
  translations : list translation;
  stage_shifts : list (Qc * Qc)
}.

(** [if drc:] on [None] or a string. *)
Definition given (drc : option string) : option string :=
  match drc with
  | Some (String c s) => Some (String c s)
  | _ => None
  end.

(** The body of the loop over the positions of range [i]. *)
Definition visit (stage_x stage_y : Qc) (drc : option string) (i j : nat)
    (dx dy : Qc) (st : locals) : tem hw locals :=
  let new_x_pos := stage_x + dx in
  let new_y_pos := stage_y + dy in
  on_hw (set_xy_with_backlash_correction new_x_pos new_y_pos) ;;
  x ← on_hw stage_x_get;
  y ← on_hw stage_y_get;
  z ← on_hw stage_z_get;
  let params := {| p_dx := dx; p_dy := dy; p_j := j;
                   p_stage_x := x; p_stage_y := y; p_stage_z := z |} in
  img ← on_hw getImage;
  match given drc with
  | Some drc =>
      on_files (write_tiff_image
                  (drc_join drc (pretty j +:+ "_" +:+ pretty i +:+ ".tiff"))
                  img)
  | None => mret ()
  end ;;
  st ← match j with
       | O => mret st
       | S _ =>
           match last_image st with
           | Some last =>
               translation ← pure (register_translation last img);
               mret {| last_image := last_image st;
                       last_params := last_params st;
                       translations := translations st ++ [translation];
                       stage_shifts := stage_shifts st ++ [(dx, dy)] |}
           | None => throw (Failure "register_translation(None, img)")
           end
       end;
  mret {| last_image := Some img;
          last_params := Some params;
          translations := translations st;
          stage_shifts := stage_shifts st |}.

(** [for j, (dx, dy) in enumerate(rng)], counting from [j]. *)
Fixpoint visit_range (stage_x stage_y : Qc) (drc : option string)
    (i j : nat) (rng : list (Qc * Qc)) (st : locals) : tem hw locals :=
  match rng with
  | [] => mret st
  | (dx, dy) :: rng' =>
      st ← visit stage_x stage_y drc i j dx dy st;
      visit_range stage_x stage_y drc i (S j) rng' st
  end.

(** [for i, rng in enumerate(ranges)], counting from [i], with the entries
    [d[i]] so far. *)
Fixpoint visit_ranges (stage_x stage_y : Qc) (drc : option string)
    (i : nat) (ranges : list (list (Qc * Qc))) (st : locals)
    (d : gmap nat params) : tem hw (locals * gmap nat params) :=
  match ranges with
  | [] => mret (st, d)
  | rng :: ranges' =>
      let st := {| last_image := None;
                   last_params := last_params st;
                   translations := translations st;
                   stage_shifts := stage_shifts st |} in
      st ← visit_range stage_x stage_y drc i 0 rng st;
      params ← match last_params st with
               | Some p => mret p
               | None => throw (UnboundLocal "params")
               end;
      visit_ranges stage_x stage_y drc (S i) ranges' st (<[i := params]> d)
  end.

Definition calibrate_stage_from_stagepos (ranges : list (list (Qc * Qc)))
    (plot : bool) (drc : option string) : tem hw matrix :=
  '(stage_x, stage_y) ← on_hw stage_xy_get;
  magnification ← on_hw magnification_get;
  mode ← on_hw mode_get;
  '(st, d) ← visit_ranges stage_x stage_y drc 0 ranges
               {| last_image := None; last_params := None;
                  translations := []; stage_shifts := [] |} ∅;
  on_hw (stage_xy_set (stage_x, stage_y)) ;;
  '(r, t) ← pure (fit_affine_transformation (stage_shifts st)
                    (translations st));
  match given drc with
  | Some drc =>
      on_files (yaml_dump (drc_join drc "log.yaml")
                  {| d_n_ranges := length ranges;
                     d_stage_x := stage_x; d_stage_y := stage_y;
                     d_magnification := magnification; d_mode := mode;
                     d_ranges := d;
                     d_translations := translations st;
                     d_stage_shifts := stage_shifts st;
                     d_r := r; d_t := t |})
  | None => mret ()
  end ;;
  (if plot
   then pure (plot_fit r (stage_shifts st) (translations st))
   else mret ()) ;;
  let stagematrix := r in
  mret stagematrix.

(** [a[:k]]. *)
Definition upto {A} (k : Z) (a : list A) : list A :=
  if decide (0 <= k)%Z then take (Z.to_nat k) a
  else take (length a - Z.to_nat (- k)) a.

(** The positions along one axis, lines 187 to 190 and 194 to 197. *)
Definition positions (step stage_length : Qc) (min_n_step max_n_step : Z)
  : outcome (list Qc) :=
  if decide (stage_length < step * of_int min_n_step)
  then Done (map (fun k => of_int (Z.of_nat k) * step)
                 (seq 0 (Z.to_nat min_n_step)))
  else match np_arange 0 stage_length step with
       | Done a => Done (upto max_n_step a)
       | Raised e => Raised e
       end.

(** [if mode and mag:] on [None], a string and an integer. *)
Definition both_given (mode : option string) (mag : option Z)
  : option (string * Z) :=
  match mode, mag with
  | Some (String c s), Some g =>
      if decide (g = 0%Z) then None else Some (String c s, g)
  | _, _ => None
  end.

Definition calibrate_stage (mode : option string) (mag : option Z)
    (overlap stage_length : Qc) (min_n_step max_n_step : Z)
    (plot : bool) (drc : option string) : tem hw matrix :=
  '(mode, mag) ← match both_given mode mag with
                 | Some (mode, mag) =>
                     on_hw (mode_set mode) ;;
                     on_hw (magnification_set mag) ;;
                     mret (mode, mag)
                 | None =>
                     mode ← on_hw mode_get;
                     mag ← on_hw magnification_get;
                     mret (mode, mag)
                 end;
  let shape := camera_dimensions in
  pixelsize ← match calibration !! mode with
              | Some c =>
                  match c !! "pixelsize" with
                  | Some table =>
                      match table !! mag with
                      | Some p => mret p
                      | None => throw MissingKey
                      end
                  | None => throw MissingKey
                  end
              | None => throw MissingKey
              end;
  if decide (pixelsize = lit 1.0 \/ pixelsize = lit 0.0)
  then throw (InvalidPixelsize mode mag pixelsize)
  else
    let x_step := of_int shape.1 * pixelsize * (1 - overlap) in
    let y_step := of_int shape.2 * pixelsize * (1 - overlap) in
    x_pos ← pure (positions x_step stage_length min_n_step max_n_step);
    let x_pos := map (fun x => (x, 0)) x_pos in
    y_pos ← pure (positions y_step stage_length min_n_step max_n_step);
    let y_pos := map (fun y => (0, y)) y_pos in
    calibrate_stage_from_stagepos [x_pos; y_pos] plot drc.

End Calibration.

End Stage.

(** A microscope for examples: its state is the mode, the magnification
    and the position of the stage; an image is the position it was taken
    at; the fit returns the number of shifts. *)
Definition demo_scope
  : Stage.Microscope (string * Z * (Qc * Qc)) (Qc * Qc) (Qc * Qc) nat unit :=
  {|
  Stage.camera_dimensions := (516, 516)%Z;
  Stage.calibration :=
    {["mag1" := {["pixelsize" := <[100%Z := lit 1.0]>
                                   (<[200%Z := lit 0.5]> ∅)]}]};
  Stage.mode_get := fun h => (h, Stage.Done h.1.1);
  Stage.mode_set := fun m h => ((m, h.1.2, h.2), Stage.Done ());
  Stage.magnification_get := fun h => (h, Stage.Done h.1.2);
  Stage.magnification_set := fun g h => ((h.1.1, g, h.2), Stage.Done ());
  Stage.stage_xy_get := fun h => (h, Stage.Done h.2);
  Stage.stage_xy_set := fun xy h => ((h.1, xy), Stage.Done ());
  Stage.stage_x_get := fun h => (h, Stage.Done h.2.1);
  Stage.stage_y_get := fun h => (h, Stage.Done h.2.2);
  Stage.stage_z_get := fun h => (h, Stage.Done 0);
  Stage.set_xy_with_backlash_correction :=
    fun x y h => ((h.1, (x, y)), Stage.Done ());
  Stage.getImage := fun h => (h, Stage.Done h.2);
  Stage.drc_join := fun d name => d +:+ "/" +:+ name;
  Stage.write_tiff_image :=
    fun fn _ σ => (<[fn := Binary []]> σ, Stage.Done ());
  Stage.yaml_dump := fun fn _ σ => (<[fn := Text "log"]> σ, Stage.Done ());
  Stage.register_translation :=
    fun a b => Stage.Done (b.1 - a.1, b.2 - a.2);
  Stage.fit_affine_transformation :=
    fun shifts _ => Stage.Done (length shifts, ());
  Stage.plot_fit := fun _ _ _ => Stage.Done ();
  Stage.np_arange := fun start _ _ => Stage.Done [start]
|}.

(** Two ranges of three positions, from the stage at (5, 7). *)
Definition demo_ranges : list (list (Qc * Qc)) :=
  [[(0, 0); (of_int 10, 0); (of_int 20, 0)];
   [(0, 0); (0, of_int 10); (0, of_int 20)]].

(** A microscope whose camera fails. *)
Definition demo_scope_without_camera
  : Stage.Microscope (string * Z * (Qc * Qc)) (Qc * Qc) (Qc * Qc) nat unit :=
  {|
  Stage.camera_dimensions := Stage.camera_dimensions (Microscope := demo_scope);
  Stage.calibration := Stage.calibration (Microscope := demo_scope);
  Stage.mode_get := Stage.mode_get (Microscope := demo_scope);
  Stage.mode_set := Stage.mode_set (Microscope := demo_scope);
  Stage.magnification_get := Stage.magnification_get (Microscope := demo_scope);
  Stage.magnification_set := Stage.magnification_set (Microscope := demo_scope);
  Stage.stage_xy_get := Stage.stage_xy_get (Microscope := demo_scope);
  Stage.stage_xy_set := Stage.stage_xy_set (Microscope := demo_scope);
  Stage.stage_x_get := Stage.stage_x_get (Microscope := demo_scope);
  Stage.stage_y_get := Stage.stage_y_get (Microscope := demo_scope);
  Stage.stage_z_get := Stage.stage_z_get (Microscope := demo_scope);
  Stage.set_xy_with_backlash_correction :=
    Stage.set_xy_with_backlash_correction (Microscope := demo_scope);
  Stage.getImage := fun h => (h, Stage.Raised (Stage.Failure "camera"));
  Stage.drc_join := Stage.drc_join (Microscope := demo_scope);
  Stage.write_tiff_image := Stage.write_tiff_image (Microscope := demo_scope);
  Stage.yaml_dump := Stage.yaml_dump (Microscope := demo_scope);
  Stage.register_translation :=
    Stage.register_translation (Microscope := demo_scope);
  Stage.fit_affine_transformation :=
    Stage.fit_affine_transformation (Microscope := demo_scope);
  Stage.plot_fit := Stage.plot_fit (Microscope := demo_scope);
  Stage.np_arange := Stage.np_arange (Microscope := demo_scope)
|}.

(** * Properties *)

Section Properties.

Context {pixel hval : Type} {ext : Externals pixel hval}.

(** ** Loops *)

Lemma for_enumerate_cons {A} (body : nat -> A -> io unit) (k : nat) (x : A)
    (l : list A) (σ : gmap string file) :
  for_enumerate body k (x :: l) σ
  = match body k x σ with
    | (σ', Ok _) => for_enumerate body (S k) l σ'
    | (σ', Raise e) => (σ', Raise e)
    end.
Proof. reflexivity. Qed.

(** ** Construction *)

Lemma drain_spec (ff : list (list pixel))
    (buffer : list (list (list pixel) * gmap string hval))
    (hs : list (gmap string hval)) (ds : list (list (list pixel))) :
  drain ff buffer hs ds
  = ([], hs ++ map snd buffer,
     ds ++ map (fun f => apply_flatfield_correction f.1 ff) buffer).
Proof.
  revert hs ds.
  induction buffer as [|[img h] buffer IH]; intros hs ds; simpl.
  - by rewrite !app_nil_r.
  - rewrite IH, <- !app_assoc. reflexivity.
Qed.

(** What a successful construction has done. *)
Lemma init_inv buffer cl os sa ea ra rr ffn buffer' self :
  __init__ buffer cl os sa ea ra rr ffn = (buffer', Ok self) ->
  exists ff h0 ps,
    read_tiff (os_path_join curdir ffn) = Ok (ff, h0)
    /\ diffraction_pixeldimensions !! cl = Some ps
    /\ ps <> 0
    /\ buffer' = []
    /\ self =
       {| pxd := diffraction_pixeldimensions; flatfield := ff;
          mrc_header := mrc_header_literal;
          headers := map snd buffer;
          data := map (fun f => apply_flatfield_correction f.1 ff) buffer;
          pixelsize := ps;
          physical_pixelsize := lit 0.055;
          wavelength := lit 0.025080;
          beam_center :=
            get_average_beam_center
              (map (fun f => apply_flatfield_correction f.1 ff) buffer);
          distance := lit 483.89 * lit 0.00412 / ps;
          osangle := os; startangle := sa; endangle := ea;
          rotation_angle := ra; dmax := rr.1; dmin := rr.2 |}.
Proof.
  unfold __init__.
  destruct (read_tiff _) as [[ff h0]|e] eqn:Hread; [|by intros [= _ ?]].
  rewrite drain_spec. simpl.
  destruct (diffraction_pixeldimensions !! cl) as [ps|] eqn:Hps;
    [|by intros [= _ ?]].
  simpl. unfold py_div. destruct (decide (ps = 0)) as [->|Hne];
    [by intros [= _ ?]|].
  simpl. intros [= <- <-]. by exists ff, h0, ps.
Qed.

(** C2: after a construction from a buffer of N pairs, [self.data] has N
    entries, entry i being the flatfield-corrected image of the i-th pair
    with its header at index i of [self.headers], and the caller's buffer
    is empty. *)
Theorem init_drains_buffer buffer cl os sa ea ra rr ffn buffer' self :
  __init__ buffer cl os sa ea ra rr ffn = (buffer', Ok self) ->
  buffer' = []
  /\ length (data self) = length buffer
  /\ length (headers self) = length buffer
  /\ forall i img h,
       buffer !! i = Some (img, h) ->
       data self !! i = Some (apply_flatfield_correction img (flatfield self))
       /\ headers self !! i = Some h.
Proof.
  intros (ff & h0 & ps & _ & _ & _ & -> & ->)%init_inv. simpl.
  rewrite !length_map. split; [done|]. split; [done|]. split; [done|].
  intros i img h Hi. rewrite !list_lookup_fmap, Hi. done.
Qed.

(** ** Rounding to binary64 *)

Lemma pow2_pos (e : Z) : (0 < pow2 e)%Q.
Proof.
  unfold pow2. case_decide.
  - change 0%Q with (inject_Z 0). rewrite <- Zlt_Qlt. lia.
  - apply Qinv_lt_0_compat. change 0%Q with (inject_Z 0).
    rewrite <- Zlt_Qlt. lia.
Qed.

Lemma round_half_even_lower (n : Z) (x : Q) :
  (inject_Z n <= x)%Q -> (n <= round_half_even x)%Z.
Proof.
  intros H. assert (n <= Qfloor x)%Z.
  { rewrite <- (Qfloor_Z n). by apply Qfloor_resp_le. }
  unfold round_half_even.
  destruct (_ ?= _)%Q; [destruct (Z.even _)| |]; lia.
Qed.

Lemma round_half_even_upper (n : Z) (x : Q) :
  (x <= inject_Z n)%Q -> (round_half_even x <= n)%Z.
Proof.
  intros H. pose proof (Qfloor_le x) as Hf.
  assert (Qfloor x <= n)%Z.
  { rewrite Zle_Qle. lra. }
  assert ((0 < x - inject_Z (Qfloor x))%Q -> (Qfloor x + 1 <= n)%Z) as Hs.
  { intros Hp. assert (Qfloor x < n)%Z; [|lia]. rewrite Zlt_Qlt. lra. }
  unfold round_half_even.
  destruct (_ ?= _)%Q eqn:E.
  - apply Qeq_alt in E. destruct (Z.even _); [done|]. apply Hs. lra.
  - done.
  - apply Qgt_alt in E. apply Hs. lra.
Qed.

(** A multiple of the unit in the last place below or above [x] is below or
    above what [x] is rounded to. *)
Lemma grid_lower (p x : Q) (n : Z) :
  (0 < p)%Q -> (inject_Z n * p <= x)%Q ->
  (inject_Z n * p <= inject_Z (round_half_even (x / p)) * p)%Q.
Proof.
  intros Hp H. apply Qmult_le_compat_r; [|lra].
  rewrite <- Zle_Qle. apply round_half_even_lower.
  by apply Qle_shift_div_l.
Qed.

Lemma grid_upper (p x : Q) (n : Z) :
  (0 < p)%Q -> (x <= inject_Z n * p)%Q ->
  (inject_Z (round_half_even (x / p)) * p <= inject_Z n * p)%Q.
Proof.
  intros Hp H. apply Qmult_le_compat_r; [|lra].
  rewrite <- Zle_Qle. apply round_half_even_upper.
  by apply Qle_shift_div_r.
Qed.

Lemma ilog2_lower (q : Q) :
  (0 < q)%Q -> (0 <= ilog2 q)%Z -> (pow2 (ilog2 q) <= q)%Q.
Proof.
  intros Hq. unfold ilog2.
  destruct (Qle_bool _ q) eqn:E; [intros _; by apply Qle_bool_iff|].
  intros Hk. unfold pow2. rewrite decide_True by done.
  destruct q as [n d]. cbn [Qnum Qden] in *.
  assert (0 < n)%Z as Hn by (unfold Qlt in Hq; simpl in Hq; lia).
  unfold Qle. cbn [Qnum Qden inject_Z]. rewrite Z.mul_1_r.
  pose proof (Z.log2_spec n Hn) as [Ha _].
  pose proof (Z.log2_spec (Z.pos d) ltac:(lia)) as [_ Hb].
  pose proof (Z.log2_nonneg (Z.pos d)) as Hd.
  set (a := Z.log2 n) in *. set (b := Z.log2 (Z.pos d)) in *.
  assert (2 ^ a = 2 ^ (a - b - 1) * 2 ^ Z.succ b)%Z as Hpow.
  { rewrite <- Z.pow_add_r by lia. f_equal. lia. }
  assert (0 < 2 ^ (a - b - 1))%Z by (apply Z.pow_pos_nonneg; lia).
  nia.
Qed.

Lemma pow2_nonpos (e : Z) :
  (e <= 0)%Z -> (inject_Z (2 ^ (- e)) * pow2 e == 1)%Q.
Proof.
  intros He. unfold pow2. case_decide.
  - assert (e = 0)%Z as -> by lia. reflexivity.
  - apply Qmult_inv_r. change 0%Q with (inject_Z 0).
    rewrite inject_Z_injective. lia.
Qed.

(** The exponent beyond the integers: the number is at least 2^53 then. *)
Lemma ulp_above_one (x : Q) (e : Z) :
  ~ (x == 0)%Q -> e = Z.max (ilog2 (Qabs x) - 52) (-1074) -> (0 < e)%Z ->
  (inject_Z (2 ^ 52) * pow2 e <= Qabs x)%Q
  /\ (inject_Z (2 ^ 53) <= inject_Z (2 ^ 52) * pow2 e)%Q.
Proof.
  intros Hx He Hpos.
  assert (ilog2 (Qabs x) = e + 52)%Z as Hl by lia.
  assert (0 < Qabs x)%Q as Ha.
  { destruct (Qlt_le_dec 0 x) as [Hp|Hn].
    - by rewrite Qabs_pos by lra.
    - rewrite Qabs_neg by done. apply Qle_lteq in Hn as [Hn|Hn]; [lra|done]. }
  pose proof (ilog2_lower _ Ha ltac:(lia)) as H. rewrite Hl in H.
  assert (pow2 (e + 52) == inject_Z (2 ^ 52) * pow2 e)%Q as E.
  { unfold pow2. rewrite !decide_True by lia.
    rewrite <- inject_Z_mult. rewrite Z.pow_add_r by lia.
    by rewrite Z.mul_comm. }
  rewrite E in H. split; [done|].
  unfold pow2. rewrite decide_True by lia. rewrite <- inject_Z_mult.
  rewrite <- Zle_Qle. change (2 ^ 53)%Z with (2 ^ 52 * 2 ^ 1)%Z.
  apply Z.mul_le_mono_nonneg_l; [lia|]. apply Z.pow_le_mono_r; lia.
Qed.

Lemma Qc_nonzero (q : Qc) : q <> 0 -> ~ (q == 0)%Q.
Proof. intros H E. apply H. by apply Qc_is_canon. Qed.

(** Rounding does not cross an integer of magnitude below 2^53. *)
Lemma round64_ge_int (z : Z) (q : Qc) :
  (Z.abs z < 2 ^ 53)%Z -> of_int z <= q -> of_int z <= round64 q.
Proof.
  intros Hz Hq. unfold round64. case_decide as H0; [by subst q|].
  apply Qc_nonzero in H0.
  set (e := Z.max (ilog2 (Qabs q) - 52) (-1074)).
  pose proof (pow2_pos e) as Hp.
  unfold Qcle, of_int in *. cbn [this Q2Qc] in *.
  rewrite Qred_correct in *. rewrite Qred_correct.
  destruct (Z_le_gt_dec e 0) as [He|He].
  - pose proof (pow2_nonpos e He) as Hk.
    assert (inject_Z z == inject_Z (z * 2 ^ (- e)) * pow2 e)%Q as E.
    { rewrite inject_Z_mult, <- Qmult_assoc, Hk. ring. }
    rewrite E. apply grid_lower; [done|]. by rewrite <- E.
  - destruct (ulp_above_one q e H0 eq_refl ltac:(lia)) as [Hlo Hbig].
    assert (inject_Z z < inject_Z (2 ^ 53))%Q as Hz1
      by (rewrite <- Zlt_Qlt; lia).
    assert (inject_Z (- 2 ^ 53) < inject_Z z)%Q as Hz2
      by (rewrite <- Zlt_Qlt; lia).
    change (inject_Z (- 2 ^ 53)) with (- inject_Z (2 ^ 53))%Q in Hz2.
    assert (Qabs q == q)%Q as Ea.
    { apply Qabs_case; [reflexivity|]. intros Hneg.
      rewrite Qabs_neg in Hlo by done. lra. }
    rewrite Ea in Hlo.
    pose proof (grid_lower _ _ _ Hp Hlo). lra.
Qed.

Lemma round64_le_int (z : Z) (q : Qc) :
  (Z.abs z < 2 ^ 53)%Z -> q <= of_int z -> round64 q <= of_int z.
Proof.
  intros Hz Hq. unfold round64. case_decide as H0; [by subst q|].
  apply Qc_nonzero in H0.
  set (e := Z.max (ilog2 (Qabs q) - 52) (-1074)).
  pose proof (pow2_pos e) as Hp.
  unfold Qcle, of_int in *. cbn [this Q2Qc] in *.
  rewrite Qred_correct in *. rewrite Qred_correct.
  destruct (Z_le_gt_dec e 0) as [He|He].
  - pose proof (pow2_nonpos e He) as Hk.
    assert (inject_Z z == inject_Z (z * 2 ^ (- e)) * pow2 e)%Q as E.
    { rewrite inject_Z_mult, <- Qmult_assoc, Hk. ring. }
    rewrite E. apply grid_upper; [done|]. by rewrite <- E.
  - destruct (ulp_above_one q e H0 eq_refl ltac:(lia)) as [Hlo Hbig].
    assert (inject_Z z < inject_Z (2 ^ 53))%Q as Hz1
      by (rewrite <- Zlt_Qlt; lia).
    assert (inject_Z (- 2 ^ 53) < inject_Z z)%Q as Hz2
      by (rewrite <- Zlt_Qlt; lia).
    change (inject_Z (- 2 ^ 53)) with (- inject_Z (2 ^ 53))%Q in Hz2.
    assert (Qabs q == - q)%Q as Ea.
    { apply Qabs_case; [|reflexivity]. intros Hnn.
      rewrite Qabs_pos in Hlo by done. lra. }
    rewrite Ea in Hlo.
    assert (q <= inject_Z (- 2 ^ 52) * pow2 e)%Q as Hup.
    { change (inject_Z (- 2 ^ 52)) with (- inject_Z (2 ^ 52))%Q. lra. }
    pose proof (grid_upper _ _ _ Hp Hup) as Hg.
    change (inject_Z (- 2 ^ 52)) with (- inject_Z (2 ^ 52))%Q in Hg. lra.
Qed.

Lemma round64_of_int (z : Z) :
  (Z.abs z < 2 ^ 53)%Z -> round64 (of_int z) = of_int z.
Proof.
  intros Hz. apply Qcle_antisym.
  - by apply round64_le_int.
  - by apply round64_ge_int.
Qed.

Lemma of_int_plus (a b : Z) : of_int (a + b) = of_int a + of_int b.
Proof.
  apply Qc_is_canon. unfold of_int, Qcplus. cbn [this Q2Qc].
  rewrite !Qred_correct, inject_Z_plus. reflexivity.
Qed.

Lemma of_int_mult (a b : Z) : of_int (a * b) = of_int a * of_int b.
Proof.
  apply Qc_is_canon. unfold of_int, Qcmult. cbn [this Q2Qc].
  rewrite !Qred_correct, inject_Z_mult. reflexivity.
Qed.

Lemma of_int_le (a b : Z) : (a <= b)%Z -> of_int a <= of_int b.
Proof.
  intros H. unfold Qcle, of_int. cbn [this Q2Qc]. rewrite !Qred_correct.
  by rewrite <- Zle_Qle.
Qed.

Lemma of_int_pos (a : Z) : (0 < a)%Z -> 0 < of_int a.
Proof.
  intros H. unfold Qclt, of_int. cbn [this Q2Qc]. rewrite !Qred_correct.
  change 0%Q with (inject_Z 0). by rewrite <- Zlt_Qlt.
Qed.

(** ** The beam center *)

Lemma Qc_sum_perm (l l' : list Qc) : l ≡ₚ l' -> Qc_sum l = Qc_sum l'.
Proof.
  induction 1 as [|x l l' _ IH|x y l|l l' l'' _ IH1 _ IH2]; simpl.
  - reflexivity.
  - by rewrite IH.
  - ring.
  - by rewrite IH1.
Qed.

Lemma arithmetic_mean_perm (l l' : list Qc) :
  l ≡ₚ l' -> arithmetic_mean l = arithmetic_mean l'.
Proof.
  intros Hp. unfold arithmetic_mean.
  by rewrite (Qc_sum_perm _ _ Hp), (Permutation_length Hp).
Qed.

(** The running sum of integers is exact as long as it stays below 2^53. *)
Lemma add_reduce_exact (B : Z) (l : list Qc) (k : nat) (a : Qc) :
  Forall (fun c => exists z : Z, c = of_int z /\ (Z.abs z <= B)%Z) l ->
  (exists z : Z, a = of_int z /\ (Z.abs z <= Z.of_nat k * B)%Z) ->
  (Z.of_nat (k + length l) * B < 2 ^ 53)%Z ->
  fold_left (fun acc c => round64 (acc + c)) l a = a + Qc_sum l.
Proof.
  intros Hall. revert k a.
  induction Hall as [|c l (z & -> & Hz) _ IH]; intros k a (za & -> & Hza) Hb.
  - cbn. ring.
  - cbn [length fold_left] in *.
    replace (k + S (length l))%nat with (S k + length l)%nat in * by lia.
    rewrite <- of_int_plus, round64_of_int by nia.
    rewrite (IH (S k)); [|exists (za + z)%Z; split; [done|lia]|done].
    rewrite of_int_plus. unfold Qc_sum. cbn [foldr]. ring.
Qed.

Lemma float_mean_exact (B : Z) (l : list Qc) :
  Forall (fun c => exists z : Z, c = of_int z /\ (Z.abs z <= B)%Z) l ->
  (Z.of_nat (length l) * B < 2 ^ 53)%Z ->
  round64 (np_add_reduce l / of_int (Z.of_nat (length l)))
  = round64 (arithmetic_mean l).
Proof.
  intros Hall Hb. unfold arithmetic_mean. destruct l as [|x l]; [done|].
  apply Forall_cons in Hall as [(z & -> & Hz) Hall]. cbn [np_add_reduce].
  rewrite (add_reduce_exact B l 1); [done|done| |done].
  exists z. split; [done|lia].
Qed.

Lemma np_mean_axis0_exact (B : Z) (centers : list (Qc * Qc)) :
  centers <> [] ->
  Forall (fun c => exists x y : Z,
            c = (of_int x, of_int y)
            /\ (Z.abs x <= B)%Z /\ (Z.abs y <= B)%Z) centers ->
  (Z.of_nat (length centers) * B < 2 ^ 53)%Z ->
  np_mean_axis0 centers
  = Some (round64 (arithmetic_mean (map fst centers)),
          round64 (arithmetic_mean (map snd centers))).
Proof.
  intros Hne Hall Hb. unfold np_mean_axis0.
  destruct centers as [|c centers]; [done|].
  set (l := c :: centers) in *.
  f_equal. f_equal.
  - rewrite <- (length_map fst l). apply (float_mean_exact B).
    + apply Forall_map. eapply Forall_impl; [exact Hall|].
      intros ? (x & y & -> & Hx & _). by exists x.
    + by rewrite length_map.
  - rewrite <- (length_map snd l). apply (float_mean_exact B).
    + apply Forall_map. eapply Forall_impl; [exact Hall|].
      intros ? (x & y & -> & _ & Hy). by exists y.
    + by rewrite length_map.
Qed.

(** C3, as the code has it: for a non-empty sequence of frames whose
    detected centers [find_beam_center(img, sigma=10)] are integers of
    absolute value at most B, as indices of pixels are, with N B below
    2^53, the beam center computed at construction is the component-wise
    arithmetic mean of the centers, rounded to binary64, and a construction
    from the frames in another order computes the same. *)
Theorem beam_center_is_rounded_mean buffer buffer' cl os sa ea ra rr ffn b
    self b' self' (B : Z) :
  buffer <> [] ->
  buffer ≡ₚ buffer' ->
  __init__ buffer cl os sa ea ra rr ffn = (b, Ok self) ->
  __init__ buffer' cl os sa ea ra rr ffn = (b', Ok self') ->
  Forall (fun img => exists x y : Z,
            find_beam_center img 10 = (of_int x, of_int y)
            /\ (Z.abs x <= B)%Z /\ (Z.abs y <= B)%Z)
         (data self) ->
  (Z.of_nat (length buffer) * B < 2 ^ 53)%Z ->
  beam_center self
  = Some (round64
            (arithmetic_mean
               (map (fun img => (find_beam_center img 10).1) (data self))),
          round64
            (arithmetic_mean
               (map (fun img => (find_beam_center img 10).2) (data self))))
  /\ beam_center self' = beam_center self.
Proof.
  intros Hne Hp (ff & h0 & ps & Hff & _ & _ & _ & ->)%init_inv
    (ff' & h0' & ps' & Hff' & _ & _ & _ & ->)%init_inv.
  rewrite Hff in Hff'. injection Hff' as <- <-. cbn [data beam_center].
  intros Hall Hb. unfold get_average_beam_center.
  set (centers := fun l : list (list (list pixel) * gmap string hval) =>
         map (fun img => find_beam_center img 10)
           (map (fun f => apply_flatfield_correction f.1 ff) l)).
  assert (Hc : centers buffer ≡ₚ centers buffer').
  { unfold centers. by rewrite Hp. }
  assert (Hex : forall l, l <> [] -> centers l ≡ₚ centers buffer ->
            np_mean_axis0 (centers l)
            = Some (round64 (arithmetic_mean (map fst (centers l))),
                    round64 (arithmetic_mean (map snd (centers l))))).
  { intros l Hl Hpl. apply (np_mean_axis0_exact B).
    - unfold centers. by destruct l.
    - rewrite Hpl. unfold centers. apply Forall_map.
      eapply Forall_impl; [exact Hall|].
      intros img (x & y & E & Hx & Hy). by exists x, y.
    - rewrite Hpl. unfold centers. by rewrite !length_map. }
  fold (centers buffer) (centers buffer').
  assert (Hne' : buffer' <> []).
  { intros ->. by apply Permutation_nil_r in Hp. }
  rewrite (Hex buffer Hne) by done.
  rewrite (Hex buffer' Hne') by done.
  split.
  - unfold centers. by rewrite !map_map.
  - f_equal. f_equal; f_equal; apply arithmetic_mean_perm; by rewrite Hc.
Qed.

(** ** fixDistortion *)

Lemma gtb_spec (x y : Qc) : gtb x y = true <-> y < x.
Proof. unfold gtb. apply bool_decide_eq_true. Qed.

(** Goals on canonical rationals with constants, as goals on [Q]. *)
Ltac Qc_to_Q :=
  unfold gtb, Qclt, Qcle, of_int, lit in *;
  try apply Qc_is_canon;
  unfold Qcplus, Qcmult, Qcopp, Qcminus in *;
  cbn [this Q2Qc] in *;
  rewrite ?Qred_correct in *;
  unfold inject_Z in *.

Ltac Qc_order :=
  unfold gtb in *;
  repeat case_bool_decide; repeat case_decide;
  Qc_to_Q; lra.

Lemma step_adjust_cases (v : Qc) :
  step_adjust v =
  if decide (v <= of_int 255) then v
  else if decide (v <= of_int 256) then v + of_int 1
  else if decide (v <= of_int 257) then v + of_int 3
  else v + of_int 4.
Proof. unfold step_adjust. Qc_order. Qed.

(** C4: [fixDistortion] adjusts each coordinate of the center on its own
    and cumulatively (1 above 255, 2 more above 256, 1 more above 257, so
    0, 1, 3 or 4 in all), leaves the center (100, 120) as it is, and calls
    the stretch correction with azimuth -6.61 and amplitude 2.43. *)
Lemma fixDistortion_run (image : list (list pixel)) (x y : Qc) :
  fixDistortion image (Some (x, y))
  = Ok (apply_stretch_correction image (step_adjust x, step_adjust y)
          (- lit 6.61) (lit 2.43)).
Proof.
  unfold fixDistortion, step_adjust. simpl. do 3 f_equal.
  - destruct (gtb x (of_int 255)), (gtb x (of_int 256)),
      (gtb x (of_int 257)); ring.
  - destruct (gtb y (of_int 255)), (gtb y (of_int 256)),
      (gtb y (of_int 257)); ring.
Qed.

Theorem fixDistortion_center :
  (forall (image : list (list pixel)) (x y : Qc),
     fixDistortion image (Some (x, y))
     = Ok (apply_stretch_correction image (step_adjust x, step_adjust y)
             (- lit 6.61) (lit 2.43)))
  /\ (forall v : Qc,
        step_adjust v =
        if decide (v <= of_int 255) then v
        else if decide (v <= of_int 256) then v + of_int 1
        else if decide (v <= of_int 257) then v + of_int 3
        else v + of_int 4)
  /\ (forall image : list (list pixel),
        fixDistortion image (Some (of_int 100, of_int 120))
        = Ok (apply_stretch_correction image (of_int 100, of_int 120)
                (- lit 6.61) (lit 2.43))).
Proof.
  split; [exact fixDistortion_run|]. split; [exact step_adjust_cases|].
  intros image. rewrite fixDistortion_run, !step_adjust_cases.
  rewrite !decide_True; [done| |]; Qc_to_Q; lra.
Qed.

(** ** writeIMG *)

(** The body of the loop, which [writeIMG] does not reach: one call of
    [write_adsc] with the 25 keys in the order of the assignments. *)
Lemma writeIMG_frame_run (self : ImgConversion) (path : string) (i : nat)
    (img img' : list (list pixel)) (h : gmap string hval) (d t : hval)
    (x y : Qc) (σ : gmap string file) :
  repack (map (map np_ushort) img) = Ok img' ->
  h !! "ImageGetTime" = Some d ->
  h !! "ImageExposureTime" = Some t ->
  beam_center self = Some (x, y) ->
  exists hdr,
    writeIMG_frame self path i (img, h) σ
    = write_adsc (frame_name path i ".img") img' hdr σ
    /\ map fst hdr
       = ["HEADER_BYTES"; "DIM"; "BYTE_ORDER"; "TYPE"; "SIZE1"; "SIZE2";
          "PIXEL_SIZE"; "BIN"; "BIN_TYPE"; "ADC"; "CREV"; "BEAMLINE";
          "DETECTOR_SN"; "DATE"; "TIME"; "DISTANCE"; "TWOTHETA"; "PHI";
          "OSC_START"; "OSC_RANGE"; "WAVELENGTH"; "BEAM_CENTER_X";
          "BEAM_CENTER_Y"; "DENZO_X_BEAM"; "DENZO_Y_BEAM"]
    /\ hdr !! 15%nat
       = Some ("DISTANCE", VStr (fmt_2f (distance self * lit 1.1)))
    /\ hdr !! 23%nat
       = Some ("DENZO_X_BEAM", VStr (fmt_2f (x * physical_pixelsize self)))
    /\ hdr !! 24%nat
       = Some ("DENZO_Y_BEAM", VStr (fmt_2f (y * physical_pixelsize self))).
Proof.
  intros Hrep Hd Ht Hc. unfold writeIMG_frame, header_item.
  rewrite Hrep, Hd, Ht, Hc. eexists. split; [reflexivity|].
  repeat split.
Qed.

(** C1 (as the code behaves): [writeIMG] reads [self.header], which no
    instance has, so that it raises [AttributeError] before it writes any
    file, whatever the frames are. *)
Theorem writeIMG_raises_AttributeError (self : ImgConversion)
    (path : string) (σ : gmap string file) :
  writeIMG self path σ = (σ, Raise (AttributeError "header")).
Proof. reflexivity. Qed.

(** ** Writing text files *)

Lemma append_cons (x : ascii) (a b : string) :
  String x a +:+ b = String x (a +:+ b).
Proof. reflexivity. Qed.

Lemma append_assoc (a b c : string) : (a +:+ b) +:+ c = a +:+ (b +:+ c).
Proof.
  induction a as [|x a IH]; [done|]. by rewrite !append_cons, IH.
Qed.

Lemma append_nil_r (a : string) : a +:+ "" = a.
Proof. induction a as [|x a IH]; [done|]. by rewrite append_cons, IH. Qed.

Lemma append_nil_l (a : string) : "" +:+ a = a.
Proof. reflexivity. Qed.

Lemma zip_with_same {A B} (f : A -> B) (l : list A) :
  zip_with (fun _ i => f i) l l = map f l.
Proof. induction l as [|x l IH]; simpl; [done|by rewrite IH]. Qed.

Lemma concat_cons (a : string) (l : list string) :
  String.concat "" (a :: l) = a +:+ String.concat "" l.
Proof. destruct l; simpl; [by rewrite append_nil_r|done]. Qed.

Lemma write_str_insert (fn t s : string) (σ : gmap string file) :
  write_str fn s (<[fn := Text t]> σ) = (<[fn := Text (t +:+ s)]> σ, Ok ()).
Proof. unfold write_str. by rewrite alter_insert_eq. Qed.

Lemma write_bytes_insert (fn : string) (t b : list Byte.byte)
    (σ : gmap string file) :
  write_bytes fn b (<[fn := Binary t]> σ)
  = (<[fn := Binary (t ++ b)]> σ, Ok ()).
Proof. unfold write_bytes. by rewrite alter_insert_eq. Qed.

(** A loop that appends one line per element to an open text file. *)
Lemma for_enumerate_write_str {A} (fn : string) (line : nat -> A -> string)
    (l : list A) (k : nat) (t : string) (σ : gmap string file) :
  for_enumerate (fun i x => write_str fn (line i x)) k l (<[fn := Text t]> σ)
  = (<[fn := Text (t +:+ String.concat ""
                           (zip_with line (seq k (length l)) l))]> σ,
     Ok ()).
Proof.
  revert k t. induction l as [|x l IH]; intros k t.
  - simpl. by rewrite append_nil_r.
  - cbn [for_enumerate length seq zip_with]. unfold mbind, io_bind.
    rewrite write_str_insert, IH.
    by rewrite concat_cons, append_assoc.
Qed.

(** The file that [ED3DCreator] writes. *)
Lemma ED3DCreator_run (self : ImgConversion) (path : string) (ra : Qc)
    (σ : gmap string file) :
  ED3DCreator self path ra σ
  = (<[os_path_join path "1.ed3d" :=
         Text (ed3d_preamble self ra
               +:+ String.concat ""
                     (map (ed3d_line self path) (seq 0 (length (data self))))
               +:+ "ENDFILELIST")]> σ,
     Ok ()).
Proof.
  unfold ED3DCreator, open_w, mbind, io_bind.
  rewrite !write_str_insert.
  let line := eval unfold ed3d_line, ed3d_angle, frame_name in
                (fun _ : nat => ed3d_line self path) in
  rewrite (for_enumerate_write_str _ line).
  rewrite write_str_insert, length_seq.
  let line := eval unfold ed3d_line, ed3d_angle, frame_name in
                (ed3d_line self path) in
  rewrite (zip_with_same line).
  unfold ed3d_preamble. by rewrite append_nil_l, !append_assoc.
Qed.

(** C5: [ED3DCreator] writes the one file [1.ed3d], made of the lines of
    geometry, one [FILE] line per frame i = 0..N-1 carrying the angle
    [startangle + osangle * i] twice, and [ENDFILELIST]; for 3 frames with
    osangle 0.5 and startangle 10.0 the angles are 10.0, 10.5 and 11.0. *)
Theorem ED3DCreator_angles (self : ImgConversion) (path : string) (ra : Qc)
    (σ : gmap string file) :
  ED3DCreator self path ra σ
  = (<[os_path_join path "1.ed3d" :=
         Text (ed3d_preamble self ra
               +:+ String.concat ""
                     (map (ed3d_line self path) (seq 0 (length (data self))))
               +:+ "ENDFILELIST")]> σ,
     Ok ())
  /\ (forall i, ed3d_angle self i
               = startangle self + osangle self * of_int (Z.of_nat i))
  /\ (length (data self) = 3%nat ->
      osangle self = lit 0.5 ->
      startangle self = lit 10.0 ->
      map (ed3d_angle self) (seq 0 (length (data self)))
      = [lit 10.0; lit 10.5; lit 11.0]).
Proof.
  split; [apply ED3DCreator_run|]. split; [done|].
  intros -> Hos Hsa. unfold ed3d_angle. rewrite Hos, Hsa. simpl.
  repeat f_equal; apply Qc_is_canon; reflexivity.
Qed.

(** ** MRCCreator *)

Lemma MRCCreator_frame_run (self : ImgConversion) (path : string)
    (c : Qc * Qc) (i : nat) (img : list (list pixel))
    (σ : gmap string file) :
  beam_center self = Some c ->
  MRCCreator_frame self path i img σ
  = (<[frame_name path i ".img" := mrc_file self c img]> σ, Ok ()).
Proof.
  intros Hc. unfold MRCCreator_frame. rewrite Hc. destruct c as [x y].
  rewrite fixDistortion_run.
  unfold lift, open_wb, mbind, io_bind.
  by rewrite !write_bytes_insert.
Qed.

Lemma MRCCreator_loop (self : ImgConversion) (path : string) (c : Qc * Qc)
    (l : list (list (list pixel))) (k : nat) (σ : gmap string file) :
  beam_center self = Some c ->
  for_enumerate (MRCCreator_frame self path) k l σ
  = (mrc_files self path c k l σ, Ok ()).
Proof.
  intros Hc. revert k σ. induction l as [|img l IH]; intros k σ; [done|].
  rewrite for_enumerate_cons, (MRCCreator_frame_run _ _ c) by done.
  by rewrite IH.
Qed.

Lemma mrc_header_literal_length : length mrc_header_literal = 1024%nat.
Proof. reflexivity. Qed.

(** C6: on an instance that [__init__] has built, [MRCCreator] writes for
    every frame i the file named with the 1-based 5-digit index and [.img],
    holding the header of exactly 1024 bytes and then the bytes of the
    image cast to int16, with its rows reversed and corrected by
    [fixDistortion] around the one beam center of the instance. *)
Theorem MRCCreator_files buffer cl os sa ea ra rr ffn b self path
    (σ : gmap string file) :
  __init__ buffer cl os sa ea ra rr ffn = (b, Ok self) ->
  length (mrc_header self) = 1024%nat
  /\ match beam_center self with
     | Some c =>
         MRCCreator self path σ
         = (foldl (fun σ p =>
                     <[os_path_join path (fmt_05d (p.1 + 1) +:+ ".img") :=
                         Binary (mrc_header self
                                 ++ tobytes
                                      (apply_stretch_correction
                                         (reverse (map (map np_int16) p.2))
                                         (step_adjust c.1, step_adjust c.2)
                                         (- lit 6.61) (lit 2.43)))]> σ)
                  σ (zip (seq 0 (length (data self))) (data self)),
            Ok ())
     | None => data self = [] /\ MRCCreator self path σ = (σ, Ok ())
     end.
Proof.
  intros (ff & h0 & ps & _ & _ & _ & _ & ->)%init_inv.
  split; [exact mrc_header_literal_length|].
  match goal with |- context [beam_center ?s] => set (self := s) end.
  destruct (beam_center self) as [c|] eqn:Hc.
  - unfold MRCCreator. by rewrite (MRCCreator_loop _ _ c).
  - assert (Hd : data self = []).
    { subst self. simpl in *. unfold get_average_beam_center in Hc.
      destruct buffer; [done|discriminate Hc]. }
    split; [done|]. unfold MRCCreator. by rewrite Hd.
Qed.

(** ** The stored rotation angle *)

(** The file that [XDSINPCreator] writes. *)
Lemma XDSINPCreator_run (self : ImgConversion) (pathsmv : string) (ra : Qc)
    (σ : gmap string file) :
  XDSINPCreator self pathsmv ra σ
  = match beam_center self with
    | Some (x, y) =>
        (<[os_path_join pathsmv "XDS.INP" :=
             Text (XDS_template_format
                     {| kw_data_begin := 1;
                        kw_data_end := Z.of_nat (length (data self));
                        kw_starting_angle := startangle self;
                        kw_wavelength := wavelength self;
                        kw_dmin := dmin self;
                        kw_dmax := dmax self;
                        kw_origin_x := x;
                        kw_origin_y := y;
                        kw_sign := "+";
                        kw_detdist := distance self;
                        kw_osangle := osangle self;
                        kw_rot_x := cos ra;
                        kw_rot_y := cos (ra + np_pi / of_int 2);
                        kw_rot_z := lit 0.0 |})]> σ,
         Ok ())
    | None => (σ, Raise IndexError)
    end.
Proof.
  unfold XDSINPCreator, open_w, lift, mbind, io_bind.
  destruct (beam_center self) as [[x y]|]; simpl; [|done].
  by rewrite write_str_insert.
Qed.

(** C10: no encoder reads the rotation angle stored at construction: an
    instance that differs in it alone behaves the same in all five, and the
    ROTATIONAXIS line of the ED3D file and the rotation axis
    (cos a, cos (a + pi/2), 0) of XDS.INP come from the argument [a] of the
    call. *)
Theorem stored_rotation_angle_is_not_read (self : ImgConversion) (r : Qc) :
  (forall path, writeTiff (with_rotation_angle self r) path
                = writeTiff self path)
  /\ (forall path, writeIMG (with_rotation_angle self r) path
                   = writeIMG self path)
  /\ (forall path, MRCCreator (with_rotation_angle self r) path
                   = MRCCreator self path)
  /\ (forall path a, ED3DCreator (with_rotation_angle self r) path a
                     = ED3DCreator self path a)
  /\ (forall path a, XDSINPCreator (with_rotation_angle self r) path a
                     = XDSINPCreator self path a)
  /\ (forall path a σ,
        ED3DCreator self path a σ
        = (<[os_path_join path "1.ed3d" :=
               Text (ed3d_preamble self a
                     +:+ String.concat ""
                           (map (ed3d_line self path)
                              (seq 0 (length (data self))))
                     +:+ "ENDFILELIST")]> σ,
           Ok ()))
  /\ (forall path a σ,
        XDSINPCreator self path a σ
        = match beam_center self with
          | Some (x, y) =>
              (<[os_path_join path "XDS.INP" :=
                   Text (XDS_template_format
                           {| kw_data_begin := 1;
                              kw_data_end := Z.of_nat (length (data self));
                              kw_starting_angle := startangle self;
                              kw_wavelength := wavelength self;
                              kw_dmin := dmin self;
                              kw_dmax := dmax self;
                              kw_origin_x := x;
                              kw_origin_y := y;
                              kw_sign := "+";
                              kw_detdist := distance self;
                              kw_osangle := osangle self;
                              kw_rot_x := cos a;
                              kw_rot_y := cos (a + np_pi / of_int 2);
                              kw_rot_z := lit 0.0 |})]> σ,
               Ok ())
          | None => (σ, Raise IndexError)
          end).
Proof.
  repeat split; try reflexivity.
  - intros. apply ED3DCreator_run.
  - intros. apply XDSINPCreator_run.
Qed.

(** ** The distance *)

(** C8 (as the code behaves): for a camera length whose pixel size is in
    the table, the construction raises [ZeroDivisionError] when the pixel
    size is 0, and otherwise succeeds, 1.0 included, with the distance
    483.89 * 0.00412 / pixel size, which is strictly positive when the pixel
    size is; no default value is substituted. *)
Theorem distance_of_pixelsize buffer cl os sa ea ra rr ffn ff h0 ps :
  read_tiff (os_path_join curdir ffn) = Ok (ff, h0) ->
  diffraction_pixeldimensions !! cl = Some ps ->
  (ps = 0 ->
   (__init__ buffer cl os sa ea ra rr ffn).2 = Raise ZeroDivisionError)
  /\ (ps <> 0 ->
      exists self,
        (__init__ buffer cl os sa ea ra rr ffn).2 = Ok self
        /\ pixelsize self = ps
        /\ distance self = lit 483.89 * lit 0.00412 / ps
        /\ (0 < ps -> 0 < distance self)).
Proof.
  intros Hff Hps. unfold __init__. rewrite Hff, drain_spec, Hps. simpl.
  unfold py_div. split.
  - intros ->. by rewrite decide_True.
  - intros Hne. rewrite decide_False by done. simpl.
    eexists. split; [reflexivity|]. simpl. split; [done|]. split; [done|].
    intros Hpos. apply Qcmult_pos_pos; [|by apply Qcinv_pos].
    Qc_to_Q. lra.
Qed.

(** ** writeTiff *)

(** A loop that raises has run its body on a prefix of the list with
    success and has got the exception from the next element. *)
Lemma for_enumerate_raise {A} (body : nat -> A -> io unit) (l : list A)
    (k : nat) (σ σ' : gmap string file) (e : exn) :
  for_enumerate body k l σ = (σ', Raise e) <->
  exists i x σi,
    l !! i = Some x
    /\ for_enumerate body k (take i l) σ = (σi, Ok ())
    /\ body (k + i)%nat x σi = (σ', Raise e).
Proof.
  revert k σ. induction l as [|x l IH]; intros k σ.
  - split; [discriminate|]. by intros (i & y & σi & Hi & _).
  - rewrite for_enumerate_cons.
    destruct (body k x σ) as [σ1 [[]|e1]] eqn:Hx.
    + rewrite IH. split.
      * intros (i & y & σi & Hi & Hpre & Hy).
        exists (S i), y, σi. split; [done|]. split.
        -- cbn [take]. by rewrite for_enumerate_cons, Hx.
        -- by rewrite Nat.add_succ_r.
      * intros (i & y & σi & Hi & Hpre & Hy).
        destruct i as [|i].
        -- simpl in Hi, Hpre. injection Hi as <-. injection Hpre as <-.
           rewrite Nat.add_0_r in Hy. congruence.
        -- exists i, y, σi. split; [done|]. split.
           ++ cbn [take] in Hpre.
              by rewrite for_enumerate_cons, Hx in Hpre.
           ++ by rewrite Nat.add_succ_r in Hy.
    + split.
      * intros [= <- <-]. exists 0%nat, x, σ.
        split; [done|]. split; [done|]. by rewrite Nat.add_0_r.
      * intros (i & y & σi & Hi & Hpre & Hy).
        destruct i as [|i].
        -- simpl in Hi, Hpre. injection Hi as <-. injection Hpre as <-.
           rewrite Nat.add_0_r in Hy. congruence.
        -- cbn [take] in Hpre.
           by rewrite for_enumerate_cons, Hx in Hpre.
Qed.

(** C9 (as the code behaves): [writeTiff] raises [e] exactly when
    [write_tiff] raises [e] on some frame i after the frames before i have
    been written; the exception is passed on as [write_tiff] raised it, the
    files are left as that call left them, and the frames after i are not
    written. *)
Theorem writeTiff_failure (self : ImgConversion) (path : string)
    (σ σ' : gmap string file) (e : exn) :
  writeTiff self path σ = (σ', Raise e) <->
  exists i, writeTiff_fails_at self path σ i e σ'.
Proof.
  unfold writeTiff, writeTiff_fails_at. rewrite for_enumerate_raise.
  split.
  - intros (i & [img h] & σi & Hi & Hpre & Hy). by exists i, img, h, σi.
  - intros (i & img & h & σi & Hi & Hpre & Hy). by exists i, (img, h), σi.
Qed.

(** ** Slices and assignments to slices *)

Section Arrays.

Context {A : Type}.
Implicit Types (a t src blk : list (list A)) (row : list A).

Lemma Forall_zip_with_both {B C D} (P : B -> Prop) (Q : C -> Prop)
    (R : D -> Prop) (f : B -> C -> D) (l : list B) (k : list C) :
  Forall P l -> Forall Q k -> (forall x y, P x -> Q y -> R (f x y)) ->
  Forall R (zip_with f l k).
Proof.
  intros Hl Hk Hf. revert k Hk.
  induction Hl as [|x l Hx Hl IH]; intros k Hk; [constructor|].
  destruct Hk as [|y k Hy Hk]; simpl; [constructor|].
  constructor; [by apply Hf|by apply IH].
Qed.

Lemma slice_0 {B} (n : nat) (l : list B) : slice 0 n l = take n l.
Proof. unfold slice. by rewrite Nat.sub_0_r. Qed.

Lemma forallb_eqb_Forall (n : nat) a :
  forallb (fun r => Nat.eqb (length r) n) a = true
  <-> Forall (fun r => length r = n) a.
Proof.
  rewrite forallb_forall, Forall_forall.
  split; intros H r Hr.
  - apply Nat.eqb_eq, H. by apply list_elem_of_In.
  - apply Nat.eqb_eq, H. by apply list_elem_of_In.
Qed.

Lemma shape_Some a h w :
  shape a = Some (h, w) ->
  length a = h /\ Forall (fun r => length r = w) a.
Proof.
  destruct a as [|r a]; simpl.
  - intros [= <- <-]. by split.
  - destruct (forallb _ a) eqn:Hall; [|done].
    intros [= <- <-]. split; [done|].
    constructor; [done|]. by apply forallb_eqb_Forall.
Qed.

Lemma shape_intro a h w :
  length a = h -> h <> 0%nat -> Forall (fun r => length r = w) a ->
  shape a = Some (h, w).
Proof.
  destruct a as [|r a]; simpl; [congruence|].
  intros <- _ Hall. apply Forall_cons in Hall as [<- Hall].
  apply forallb_eqb_Forall in Hall. by rewrite Hall.
Qed.

Lemma broadcast_to_exact h w src :
  length src = h -> h <> 0%nat -> Forall (fun r => length r = w) src ->
  broadcast_to h w src = Ok src.
Proof.
  intros Hh Hne Hw. unfold broadcast_to.
  rewrite (shape_intro src h w) by done.
  rewrite !Nat.eqb_refl. simpl. f_equal. apply map_id.
Qed.

Lemma broadcast_to_dims h w src blk :
  broadcast_to h w src = Ok blk ->
  length blk = h /\ Forall (fun r => length r = w) blk.
Proof.
  unfold broadcast_to.
  destruct (shape src) as [[sh sw]|] eqn:Hs; [|done].
  apply shape_Some in Hs as [Hlen Hrows].
  destruct ((Nat.eqb sh h || Nat.eqb sh 1) && (Nat.eqb sw w || Nat.eqb sw 1))
    eqn:Hc; [|done].
  intros [= <-].
  apply andb_true_iff in Hc as [Hh Hw].
  apply orb_true_iff in Hh, Hw.
  rewrite length_map.
  assert (Hrows' :
    length (if Nat.eqb sh h then src else flat_map (replicate h) src) = h
    /\ Forall (fun r => length r = sw)
         (if Nat.eqb sh h then src else flat_map (replicate h) src)).
  { destruct (Nat.eqb sh h) eqn:E.
    - apply Nat.eqb_eq in E. by subst.
    - destruct Hh as [Hh|Hh]; [congruence|]. apply Nat.eqb_eq in Hh.
      destruct src as [|r [|? ?]]; simpl in *; try lia.
      rewrite app_nil_r, length_replicate. split; [done|].
      apply Forall_replicate. by apply Forall_inv in Hrows. }
  destruct Hrows' as [Hl Hr]. split; [done|].
  apply Forall_map. eapply Forall_impl; [exact Hr|].
  intros row Hrow. simpl.
  destruct (Nat.eqb sw w) eqn:E.
  - apply Nat.eqb_eq in E. congruence.
  - destruct Hw as [Hw|Hw]; [congruence|]. apply Nat.eqb_eq in Hw.
    destruct row as [|x [|? ?]]; simpl in *; try lia.
    by rewrite app_nil_r, length_replicate.
Qed.

Lemma setitem2_exact t r0 r1 c0 c1 src :
  length src = (r1 - r0)%nat -> (r0 < r1)%nat ->
  Forall (fun r => length r = (c1 - c0)%nat) src ->
  setitem2 t r0 r1 c0 c1 src
  = Ok (take r0 t ++ zip_with (paste c0 c1) (slice r0 r1 t) src
        ++ drop r1 t).
Proof.
  intros Hl Hlt Hw. unfold setitem2.
  rewrite broadcast_to_exact by (done || lia). reflexivity.
Qed.

Lemma setitem2_dims t r0 r1 c0 c1 src t' H W :
  setitem2 t r0 r1 c0 c1 src = Ok t' ->
  length t = H -> Forall (fun r => length r = W) t ->
  (r0 <= r1 <= H)%nat -> (c0 <= c1 <= W)%nat ->
  length t' = H /\ Forall (fun r => length r = W) t'.
Proof.
  unfold setitem2. intros Hset Ht Hrows Hr Hc.
  destruct (broadcast_to _ _ src) as [blk|e] eqn:Hb; [|done].
  apply broadcast_to_dims in Hb as [Hbl Hbw].
  injection Hset as <-. split.
  - rewrite !length_app, length_zip_with, length_take, length_drop.
    unfold slice. rewrite length_take, length_drop. lia.
  - rewrite !Forall_app. split; [by apply Forall_take|].
    split; [|by apply Forall_drop].
    apply Forall_zip_with_both with (P := fun r => length r = W)
                                    (Q := fun r => length r = (c1 - c0)%nat).
    + unfold slice. by apply Forall_take, Forall_drop.
    + exact Hbw.
    + intros trow srow Ht' Hs'. unfold paste.
      rewrite !length_app, length_take, length_drop. lia.
Qed.

Lemma setitem2_top (X Y : list (list A)) n c0 c1 src :
  length X = n -> length src = n -> n <> 0%nat ->
  Forall (fun r => length r = (c1 - c0)%nat) src ->
  setitem2 (X ++ Y) 0 n c0 c1 src = Ok (zip_with (paste c0 c1) X src ++ Y).
Proof.
  intros HX Hs Hn Hw. rewrite setitem2_exact by (done || lia).
  rewrite slice_0, take_0, take_app_length', drop_app_length' by done.
  reflexivity.
Qed.

Lemma setitem2_bottom (X Y : list (list A)) n m c0 c1 src :
  length X = n -> length Y = m -> length src = m -> m <> 0%nat ->
  Forall (fun r => length r = (c1 - c0)%nat) src ->
  setitem2 (X ++ Y) n (n + m) c0 c1 src
  = Ok (X ++ zip_with (paste c0 c1) Y src).
Proof.
  intros HX HY Hs Hm Hw. rewrite setitem2_exact by (done || lia).
  unfold slice.
  rewrite take_app_length', drop_app_length' by done.
  rewrite take_ge by lia.
  rewrite drop_ge by (rewrite length_app; lia).
  by rewrite app_nil_r.
Qed.

(** The two assignments that fill one half of the rows of the new image,
    on a block of zero rows. *)
Lemma paste_quadrants (z : A) (n : nat) (R : list (list A)) :
  length R = n -> Forall (fun r => length r = 516%nat) R ->
  zip_with (paste 256 512)
    (zip_with (paste 0 256) (replicate n (replicate 512 z))
       (map (take 256) R))
    (map (drop 260) R)
  = map (fun row => take 256 row ++ drop 260 row) R.
Proof.
  intros Hn HR. revert n Hn.
  induction HR as [|row R Hrow HR IH]; intros n Hn; [by destruct n|].
  destruct n as [|n]; [done|]. injection Hn as Hn.
  change (replicate (S n) (replicate 512 z))
    with (replicate 512 z :: replicate n (replicate 512 z)).
  cbn [map zip_with]. rewrite IH by done. f_equal.
  unfold paste. rewrite take_0, app_nil_l.
  rewrite take_app_length' by (rewrite length_take; lia).
  rewrite (drop_ge (_ ++ _))
    by (rewrite length_app, length_take, length_drop, length_replicate; lia).
  by rewrite app_nil_r.
Qed.

End Arrays.

Lemma result_bind_Ok {B C} (b : B) (f : B -> result C) : Ok b ≫= f = f b.
Proof. reflexivity. Qed.

(** ** The re-packing of writeIMG *)

Lemma repack_other (img : list (list pixel)) :
  length img <> 516%nat -> repack img = Ok img.
Proof.
  intros Hne. unfold repack.
  by rewrite (proj2 (Nat.eqb_neq _ _) Hne).
Qed.

Lemma repack_516 (img : list (list pixel)) :
  shape img = Some (516, 516)%nat -> repack img = Ok (without_seam img).
Proof.
  intros [Hlen Hrows]%shape_Some. unfold repack, slice2, without_seam.
  rewrite Hlen, Nat.eqb_refl, !slice_0.
  rewrite !(map_ext (slice 0 256) (take 256)) by (intros; apply slice_0).
  assert (HA : length (take 256 img) = 256%nat)
    by (rewrite length_take; lia).
  assert (HB : length (drop 260 img) = 256%nat)
    by (rewrite length_drop; lia).
  assert (HAr : Forall (fun r => length r = 516%nat) (take 256 img))
    by (by apply Forall_take).
  assert (HBr : Forall (fun r => length r = 516%nat) (drop 260 img))
    by (by apply Forall_drop).
  assert (Hl : forall R : list (list pixel),
            Forall (fun r => length r = 516%nat) R ->
            Forall (fun r => length r = (256 - 0)%nat) (map (take 256) R)).
  { intros R HR. apply Forall_map. eapply Forall_impl; [exact HR|].
    intros r Hr. cbv beta. rewrite length_take, Hr. reflexivity. }
  assert (Hr : forall R : list (list pixel),
            Forall (fun r => length r = 516%nat) R ->
            Forall (fun r => length r = (512 - 256)%nat) (map (drop 260) R)).
  { intros R HR. apply Forall_map. eapply Forall_impl; [exact HR|].
    intros r Hr. cbv beta. rewrite length_drop, Hr. reflexivity. }
  set (A0 := take 256 img) in *. set (B0 := drop 260 img) in *.
  unfold np_zeros.
  change (replicate 512 (replicate 512 ushort_zero))
    with (replicate (256 + 256) (replicate 512 ushort_zero)).
  rewrite replicate_add.
  set (Zb := replicate 256 (replicate 512 ushort_zero)).
  assert (HZ : length Zb = 256%nat) by apply length_replicate.
  rewrite (setitem2_top Zb Zb 256)
    by (rewrite ?length_map; auto).
  rewrite result_bind_Ok.
  rewrite (setitem2_bottom _ Zb 256 256)
    by (rewrite ?length_zip_with, ?length_map; auto; lia).
  rewrite result_bind_Ok.
  rewrite (setitem2_top _ _ 256)
    by (rewrite ?length_zip_with, ?length_map; auto; lia).
  rewrite result_bind_Ok.
  rewrite (setitem2_bottom _ _ 256 256)
    by (rewrite ?length_zip_with, ?length_map; auto; lia).
  rewrite result_bind_Ok.
  subst Zb. rewrite !paste_quadrants by done.
  by rewrite map_app.
Qed.

Lemma repack_dims (img out : list (list pixel)) :
  length img = 516%nat -> repack img = Ok out ->
  length out = 512%nat /\ Forall (fun r => length r = 512%nat) out.
Proof.
  intros Hlen. unfold repack. rewrite Hlen, Nat.eqb_refl.
  assert (H0 : length (np_zeros ushort_zero 512 512) = 512%nat
               /\ Forall (fun r => length r = 512%nat)
                    (np_zeros ushort_zero 512 512)).
  { unfold np_zeros. split; [apply length_replicate|].
    apply Forall_replicate, length_replicate. }
  destruct H0 as [H0l H0r].
  destruct (setitem2 _ 0 256 0 256 _) as [t1|] eqn:E1; [|done].
  rewrite result_bind_Ok.
  destruct (setitem2_dims _ _ _ _ _ _ _ _ _ E1 H0l H0r) as [H1l H1r];
    [lia|lia|].
  destruct (setitem2 t1 _ _ _ _ _) as [t2|] eqn:E2; [|done].
  rewrite result_bind_Ok.
  destruct (setitem2_dims _ _ _ _ _ _ _ _ _ E2 H1l H1r) as [H2l H2r];
    [lia|lia|].
  destruct (setitem2 t2 _ _ _ _ _) as [t3|] eqn:E3; [|done].
  rewrite result_bind_Ok.
  destruct (setitem2_dims _ _ _ _ _ _ _ _ _ E3 H2l H2r) as [H3l H3r];
    [lia|lia|].
  destruct (setitem2 t3 _ _ _ _ _) as [t4|] eqn:E4; [|done].
  rewrite result_bind_Ok.
  destruct (setitem2_dims _ _ _ _ _ _ _ _ _ E4 H3l H3r) as [H4l H4r];
    [lia|lia|].
  intros [= <-]. by split.
Qed.

(** C7: the re-packing of [writeIMG] acts exactly on the images of 516
    rows; on a 516 x 516 image it yields the 512 x 512 image without the
    rows and columns 256 to 259; and applied to its own result it changes
    nothing. *)
Theorem repack_idempotent (img : list (list pixel)) :
  (length img <> 516%nat -> repack img = Ok img)
  /\ (shape img = Some (516, 516)%nat -> repack img = Ok (without_seam img))
  /\ (forall out,
        repack img = Ok out ->
        repack out = Ok out
        /\ (length img = 516%nat ->
            length out = 512%nat
            /\ Forall (fun r => length r = 512%nat) out)).
Proof.
  split; [apply repack_other|]. split; [apply repack_516|].
  intros out Hout. split.
  - destruct (decide (length img = 516%nat)) as [Hlen|Hne].
    + destruct (repack_dims _ _ Hlen Hout) as [Hl _].
      apply (repack_other out). lia.
    + rewrite repack_other in Hout by done. injection Hout as <-.
      by apply (repack_other img).
  - intros Hlen. by apply (repack_dims img).
Qed.

End Properties.

(** * The properties on the small environment *)

Lemma demo_init_250 (quota : nat) :
  demo_init quota 250 demo_buffer = ([], Ok demo_self).
Proof. vm_compute. reflexivity. Qed.

(** [init_drains_buffer] on the three frames of [demo_buffer]. *)
Lemma init_drains_buffer_witness :
  demo_init 9 250 demo_buffer = ([], Ok demo_self)
  /\ length (data demo_self) = length demo_buffer
  /\ length (headers demo_self) = length demo_buffer.
Proof.
  pose proof (demo_init_250 9) as H.
  split; [exact H|]. unfold demo_init in H.
  destruct (init_drains_buffer (ext := demo 9 demo_table)
              _ _ _ _ _ _ _ _ _ _ H) as (_ & Hd & Hh & _).
  split; [exact Hd|exact Hh].
Defined.

(** The beam center of [demo_self]. *)
Lemma demo_beam_center :
  beam_center demo_self = Some (of_int 101, of_int 120).
Proof.
  cbn [beam_center demo_self]. unfold np_mean_axis0.
  f_equal. f_equal; apply Qc_is_canon; vm_compute; reflexivity.
Qed.

(** [beam_center_is_rounded_mean] on [demo_buffer] and on its reversal,
    whose centers are integers up to 121. *)
Lemma beam_center_is_rounded_mean_witness :
  demo_buffer <> []
  /\ demo_buffer ≡ₚ reverse demo_buffer
  /\ demo_init 9 250 demo_buffer = ([], Ok demo_self)
  /\ (Z.of_nat (length demo_buffer) * 121 < 2 ^ 53)%Z
  /\ exists self',
       demo_init 9 250 (reverse demo_buffer) = ([], Ok self')
       /\ beam_center self' = beam_center demo_self.
Proof.
  assert (Hne : demo_buffer <> []) by discriminate.
  assert (Hp : demo_buffer ≡ₚ reverse demo_buffer)
    by (symmetry; apply reverse_Permutation).
  pose proof (demo_init_250 9) as H.
  eassert (H' : demo_init 9 250 (reverse demo_buffer) = ([], Ok _))
    by (vm_compute; reflexivity).
  assert (Hb : (Z.of_nat (length demo_buffer) * 121 < 2 ^ 53)%Z)
    by (vm_compute; reflexivity).
  split; [exact Hne|]. split; [exact Hp|]. split; [exact H|].
  split; [exact Hb|].
  eexists. split; [exact H'|].
  unfold demo_init in H, H'.
  refine (proj2 (beam_center_is_rounded_mean (ext := demo 9 demo_table)
                   _ _ _ _ _ _ _ _ _ _ _ _ _ 121 Hne Hp H H' _ Hb)).
  cbn [data demo_self demo_buffer map fst].
  constructor; [exists 100%Z, 120%Z; split; [reflexivity|split; lia]|].
  constructor; [exists 101%Z, 121%Z; split; [reflexivity|split; lia]|].
  constructor; [exists 102%Z, 119%Z; split; [reflexivity|split; lia]|].
  constructor.
Defined.

(** The claim of a mean that does not depend on the order of the frames
    fails: the centers (0.1, 0.3), (0.2, 0.2), (0.3, 0.1) give the beam
    center (0.20000000000000004, 0.19999999999999998), and the same frames
    in the reverse order give (0.19999999999999998, 0.20000000000000004);
    neither coordinate is the arithmetic mean 0.2. *)
Lemma beam_center_depends_on_order :
  demo_tenths_buffer ≡ₚ reverse demo_tenths_buffer
  /\ exists self self',
       __init__ (ext := demo_tenths) demo_tenths_buffer 250
         (lit 0.5) (lit 10.0) (lit 11.0) (lit 0.9) (lit 20, lit 0.8)
         "flatfield.tiff"
       = ([], Ok self)
       /\ __init__ (ext := demo_tenths) (reverse demo_tenths_buffer) 250
            (lit 0.5) (lit 10.0) (lit 11.0) (lit 0.9) (lit 20, lit 0.8)
            "flatfield.tiff"
          = ([], Ok self')
       /\ beam_center self
          = Some (lit (7205759403792795 # 36028797018963968),
                  lit (7205759403792793 # 36028797018963968))
       /\ beam_center self'
          = Some (lit (7205759403792793 # 36028797018963968),
                  lit (7205759403792795 # 36028797018963968))
       /\ beam_center self' <> beam_center self.
Proof.
  split; [symmetry; apply reverse_Permutation|].
  eexists. eexists.
  split; [vm_compute; reflexivity|]. split; [vm_compute; reflexivity|].
  cbn [beam_center].
  assert (E : forall a b c d : Qc, a = c -> b = d -> Some (a, b) = Some (c, d))
    by (by intros ???? -> ->).
  split; [apply E; apply Qc_is_canon; reflexivity|].
  split; [apply E; apply Qc_is_canon; reflexivity|].
  intros H. injection H as H _. discriminate H.
Qed.

(** [ED3DCreator_angles] on the instance of three frames. *)
Lemma ED3DCreator_angles_witness :
  length (data demo_self) = 3%nat
  /\ osangle demo_self = lit 0.5
  /\ startangle demo_self = lit 10.0
  /\ map (ed3d_angle demo_self) (seq 0 (length (data demo_self)))
     = [lit 10.0; lit 10.5; lit 11.0].
Proof.
  destruct (ED3DCreator_angles (ext := demo 9 demo_table)
              demo_self "out" (lit 0.9) ∅) as (_ & _ & H).
  split; [reflexivity|]. split; [reflexivity|]. split; [reflexivity|].
  apply H; reflexivity.
Defined.

(** [MRCCreator_files] on the instance of three frames. *)
Lemma MRCCreator_files_witness :
  demo_init 9 250 demo_buffer = ([], Ok demo_self)
  /\ length (mrc_header demo_self) = 1024%nat
  /\ MRCCreator (ext := demo 9 demo_table) demo_self "out" ∅
     = (<["out/00003.img" := Binary mrc_header_literal]>
          (<["out/00002.img" := Binary mrc_header_literal]>
             (<["out/00001.img" := Binary mrc_header_literal]> ∅)),
        Ok ()).
Proof.
  pose proof (demo_init_250 9) as H.
  split; [exact H|]. unfold demo_init in H.
  destruct (MRCCreator_files (ext := demo 9 demo_table)
              _ _ _ _ _ _ _ _ _ _ "out" ∅ H) as [Hl Hm].
  split; [exact Hl|].
  etrans; [exact Hm|]. vm_compute. reflexivity.
Defined.

(** [repack_idempotent] on a 516 x 516 image. *)
Lemma repack_idempotent_witness :
  shape demo_516 = Some (516, 516)%nat
  /\ repack (ext := demo 9 demo_table) demo_516
     = Ok (without_seam demo_516)
  /\ repack (ext := demo 9 demo_table) (without_seam demo_516)
     = Ok (without_seam demo_516).
Proof.
  destruct (repack_idempotent (ext := demo 9 demo_table) demo_516)
    as (_ & H516 & Hidem).
  assert (Hs : shape demo_516 = Some (516, 516)%nat)
    by (vm_compute; reflexivity).
  split; [exact Hs|]. split; [exact (H516 Hs)|].
  exact (proj1 (Hidem _ (H516 Hs))).
Defined.

(** [distance_of_pixelsize] at the camera length 250, whose pixel size is
    0.00412. *)
Lemma distance_of_pixelsize_witness :
  read_tiff (Externals := demo 9 demo_table)
    (os_path_join (Externals := demo 9 demo_table)
       (curdir (Externals := demo 9 demo_table)) "flatfield.tiff")
  = Ok ([[1%Z]], ∅)
  /\ demo_table !! 250%Z = Some (lit 0.00412)
  /\ exists self,
       (demo_init 9 250 demo_buffer).2 = Ok self
       /\ pixelsize self = lit 0.00412
       /\ distance self = lit 483.89 * lit 0.00412 / lit 0.00412
       /\ 0 < distance self.
Proof.
  assert (Hr : read_tiff (Externals := demo 9 demo_table)
                 (os_path_join (Externals := demo 9 demo_table)
                    (curdir (Externals := demo 9 demo_table))
                    "flatfield.tiff")
               = Ok ([[1%Z]], ∅)) by reflexivity.
  assert (Ht : demo_table !! 250%Z = Some (lit 0.00412))
    by (vm_compute; reflexivity).
  split; [exact Hr|]. split; [exact Ht|].
  destruct (proj2 (distance_of_pixelsize (ext := demo 9 demo_table)
                     demo_buffer 250 (lit 0.5) (lit 10.0) (lit 11.0)
                     (lit 0.9) (lit 20, lit 0.8) "flatfield.tiff" _ _ _
                     Hr Ht))
    as (self & Hs & Hp & Hd & Hpos).
  { discriminate. }
  exists self. split; [exact Hs|]. split; [exact Hp|]. split; [exact Hd|].
  apply Hpos. reflexivity.
Defined.

(** The claim of an error for the pixel size 1.0 fails: at the camera
    length 1, whose pixel size is 1.0, the construction raises nothing and
    the distance is 1.9936268. *)
Lemma pixelsize_one_is_accepted :
  demo_table !! 1%Z = Some (lit 1.0)
  /\ (forall e, (demo_init 9 1 demo_buffer).2 <> Raise e)
  /\ exists self,
       (demo_init 9 1 demo_buffer).2 = Ok self
       /\ pixelsize self = lit 1.0
       /\ distance self = lit 1.9936268.
Proof.
  split; [vm_compute; reflexivity|]. split.
  - intros e. vm_compute. discriminate.
  - eexists. split; [vm_compute; reflexivity|].
    split; apply Qc_is_canon; reflexivity.
Qed.

(** [writeTiff_failure] on a disk with room for one file. *)
Lemma writeTiff_failure_witness :
  writeTiff (ext := demo 1 demo_table) demo_self "out" ∅
  = (<["out/00001.tiff" := Binary []]> ∅, Raise disk_full)
  /\ exists i,
       writeTiff_fails_at (ext := demo 1 demo_table) demo_self "out" ∅ i
         disk_full (<["out/00001.tiff" := Binary []]> ∅).
Proof.
  assert (H : writeTiff (ext := demo 1 demo_table) demo_self "out" ∅
              = (<["out/00001.tiff" := Binary []]> ∅, Raise disk_full))
    by (vm_compute; reflexivity).
  split; [exact H|].
  exact (proj1 (writeTiff_failure (ext := demo 1 demo_table)
                  demo_self "out" ∅ _ disk_full) H).
Defined.

(** The claim of a failure report that identifies the frame fails: the same
    instance fails at frame 0 on a full disk and at frame 1 on a disk with
    room for one file, with the same exception, so that no function of the
    exception gives the frame. *)
Lemma writeTiff_report_has_no_index :
  ~ exists frame_of : exn -> nat,
      forall quota σ' e i,
        writeTiff_fails_at (ext := demo quota demo_table) demo_self "out" ∅
          i e σ' ->
        frame_of e = i.
Proof.
  intros [frame_of H].
  assert (H0 : frame_of disk_full = 0%nat).
  { apply (H 0%nat ∅).
    exists [[100; 120]; [3; 4]]%Z, {["ImageGetTime" := "t0"]}, ∅.
    split; [reflexivity|]. split; [reflexivity|]. vm_compute. reflexivity. }
  assert (H1 : frame_of disk_full = 1%nat).
  { apply (H 1%nat (<["out/00001.tiff" := Binary []]> ∅)).
    exists [[101; 121]; [5; 6]]%Z, {["ImageGetTime" := "t1"]},
      (<["out/00001.tiff" := Binary []]> ∅).
    split; [reflexivity|]. split; vm_compute; reflexivity. }
  congruence.
Qed.

(** * Further properties of the class *)

Section Construction.

Context {pixel hval : Type} {ext : Externals pixel hval}.

(** X1: when the flatfield cannot be read, the construction raises the
    exception of [read_tiff] and the caller's buffer is as it was. *)
Theorem init_without_flatfield buffer cl os sa ea ra rr ffn e :
  read_tiff (os_path_join curdir ffn) = Raise e ->
  __init__ buffer cl os sa ea ra rr ffn = (buffer, Raise e).
Proof. intros H. unfold __init__. by rewrite H. Qed.

(** X2: once the flatfield is read, the caller's buffer is emptied whether
    or not an instance is built: a camera length that is not in the table
    raises [KeyError], and one with pixel size 0 [ZeroDivisionError], both
    after the frames have been taken out of the buffer. *)
Theorem init_failure_drains_buffer buffer cl os sa ea ra rr ffn ff h0 :
  read_tiff (os_path_join curdir ffn) = Ok (ff, h0) ->
  (__init__ buffer cl os sa ea ra rr ffn).1 = []
  /\ (diffraction_pixeldimensions !! cl = None ->
      __init__ buffer cl os sa ea ra rr ffn = ([], Raise KeyError))
  /\ (diffraction_pixeldimensions !! cl = Some 0 ->
      __init__ buffer cl os sa ea ra rr ffn = ([], Raise ZeroDivisionError)).
Proof.
  intros H. unfold __init__. rewrite H, drain_spec. simpl.
  split; [done|]. split; intros ->; [done|].
  cbn [mbind result_bind]. unfold py_div. by rewrite decide_True.
Qed.

(** X3: an instance built from an empty buffer has no beam center (numpy's
    mean of nothing), and one built from frames has one; so [XDSINPCreator]
    raises [IndexError] and writes nothing exactly for the instances built
    from an empty buffer. *)
Theorem XDSINPCreator_needs_a_frame buffer cl os sa ea ra rr ffn b self
    (pathsmv : string) (a : Qc) (σ : gmap string file) :
  __init__ buffer cl os sa ea ra rr ffn = (b, Ok self) ->
  (beam_center self = None <-> buffer = [])
  /\ (XDSINPCreator self pathsmv a σ = (σ, Raise IndexError) <-> buffer = [])
  /\ (buffer <> [] ->
      exists s, XDSINPCreator self pathsmv a σ
                = (<[os_path_join pathsmv "XDS.INP" := Text s]> σ, Ok ())).
Proof.
  intros (ff & h0 & ps & _ & _ & _ & _ & ->)%init_inv.
  rewrite XDSINPCreator_run. simpl. unfold get_average_beam_center.
  destruct buffer as [|f buffer]; simpl.
  - split; [done|]. split; [done|]. done.
  - split; [split; discriminate|]. split; [split; discriminate|].
    intros _. eexists. reflexivity.
Qed.

(** ** The beam center between the detected centers *)

(** The running sum of numbers between [L] and [H], rounded after each
    addition, stays between the multiples of [L] and [H]. *)
Lemma add_reduce_between (L H : Z) (l : list Qc) (k : nat) (a : Qc) :
  Forall (fun c => of_int L <= c /\ c <= of_int H) l ->
  of_int (Z.of_nat k * L) <= a /\ a <= of_int (Z.of_nat k * H) ->
  (Z.of_nat (k + length l) * Z.max (Z.abs L) (Z.abs H) < 2 ^ 53)%Z ->
  of_int (Z.of_nat (k + length l) * L)
  <= fold_left (fun acc c => round64 (acc + c)) l a
  /\ fold_left (fun acc c => round64 (acc + c)) l a
     <= of_int (Z.of_nat (k + length l) * H).
Proof.
  intros Hall. revert k a.
  induction Hall as [|c l [Hlo Hhi] _ IH]; intros k a [Halo Hahi] Hb.
  - cbn [length fold_left]. by rewrite Nat.add_0_r.
  - cbn [length fold_left] in *.
    replace (k + S (length l))%nat with (S k + length l)%nat in * by lia.
    apply IH; [|done]. split.
    + apply round64_ge_int; [nia|].
      replace (Z.of_nat (S k) * L)%Z with (Z.of_nat k * L + L)%Z by lia.
      rewrite of_int_plus. by apply Qcplus_le_compat.
    + apply round64_le_int; [nia|].
      replace (Z.of_nat (S k) * H)%Z with (Z.of_nat k * H + H)%Z by lia.
      rewrite of_int_plus. by apply Qcplus_le_compat.
Qed.

Lemma Qc_div_between (s n lo hi : Qc) :
  0 < n -> n * lo <= s -> s <= n * hi -> lo <= s / n /\ s / n <= hi.
Proof.
  intros Hn Hlo Hhi.
  assert (Hn0 : n <> 0).
  { intros E. rewrite E in Hn. by apply Qclt_not_eq in Hn. }
  assert (Hs : s / n * n = s) by (field; done).
  split.
  - apply (Qcmult_le_mono_pos_r _ _ n Hn).
    by rewrite Hs, (Qcmult_comm lo n).
  - apply (Qcmult_le_mono_pos_r _ _ n Hn).
    by rewrite Hs, (Qcmult_comm hi n).
Qed.

Lemma float_mean_between (L H : Z) (l : list Qc) :
  l <> [] ->
  Forall (fun c => of_int L <= c /\ c <= of_int H) l ->
  (Z.of_nat (length l) * Z.max (Z.abs L) (Z.abs H) < 2 ^ 53)%Z ->
  of_int L <= round64 (np_add_reduce l / of_int (Z.of_nat (length l)))
  /\ round64 (np_add_reduce l / of_int (Z.of_nat (length l))) <= of_int H.
Proof.
  intros Hne Hall Hb. destruct l as [|x l]; [done|].
  apply Forall_cons in Hall as [Hx Hall]. cbn [np_add_reduce].
  destruct (add_reduce_between L H l 1 x Hall) as [Hlo Hhi].
  { by rewrite !Z.mul_1_l. }
  { exact Hb. }
  change (1 + length l)%nat with (length (x :: l)) in *.
  set (s := fold_left _ l x) in *.
  set (n := Z.of_nat (length (x :: l))) in *.
  assert (0 < n)%Z by (subst n; cbn [length]; lia).
  rewrite !of_int_mult in Hlo, Hhi.
  destruct (Qc_div_between s (of_int n) (of_int L) (of_int H))
    as [Hl Hh]; [by apply of_int_pos|done|done|].
  split; [apply round64_ge_int|apply round64_le_int]; try done; nia.
Qed.

Lemma np_mean_axis0_between (xlo xhi ylo yhi : Z) (centers : list (Qc * Qc))
    (x y : Qc) :
  Forall (fun c => (of_int xlo <= c.1 /\ c.1 <= of_int xhi)
                   /\ (of_int ylo <= c.2 /\ c.2 <= of_int yhi)) centers ->
  (Z.of_nat (length centers) * Z.max (Z.abs xlo) (Z.abs xhi) < 2 ^ 53)%Z ->
  (Z.of_nat (length centers) * Z.max (Z.abs ylo) (Z.abs yhi) < 2 ^ 53)%Z ->
  np_mean_axis0 centers = Some (x, y) ->
  (of_int xlo <= x /\ x <= of_int xhi) /\ (of_int ylo <= y /\ y <= of_int yhi).
Proof.
  intros Hall Hbx Hby. destruct centers as [|c l]; [done|].
  change (np_mean_axis0 (c :: l))
    with (Some (round64 (np_add_reduce (map fst (c :: l))
                         / of_int (Z.of_nat (length (c :: l)))),
                round64 (np_add_reduce (map snd (c :: l))
                         / of_int (Z.of_nat (length (c :: l)))))).
  assert (Hx := float_mean_between xlo xhi (map fst (c :: l))).
  assert (Hy := float_mean_between ylo yhi (map snd (c :: l))).
  rewrite length_map in Hx, Hy.
  intros [= <- <-]. split.
  - apply Hx; [done| |done].
    apply Forall_map. eapply Forall_impl; [exact Hall|]. by intros ? [? _].
  - apply Hy; [done| |done].
    apply Forall_map. eapply Forall_impl; [exact Hall|]. by intros ? [_ ?].
Qed.

(** X4: the beam center of an instance lies, in each coordinate, between
    integer bounds that the centers detected in all of its frames keep, as
    long as N times the bounds stays below 2^53, the rounding of the mean
    included; so it is the common center when all frames detect the same
    pixel. *)
Theorem beam_center_within_bounds buffer cl os sa ea ra rr ffn b self
    (xlo xhi ylo yhi : Z) (x y : Qc) :
  __init__ buffer cl os sa ea ra rr ffn = (b, Ok self) ->
  (Z.of_nat (length buffer) * Z.max (Z.abs xlo) (Z.abs xhi) < 2 ^ 53)%Z ->
  (Z.of_nat (length buffer) * Z.max (Z.abs ylo) (Z.abs yhi) < 2 ^ 53)%Z ->
  Forall (fun img =>
            (of_int xlo <= (find_beam_center img 10).1
             /\ (find_beam_center img 10).1 <= of_int xhi)
            /\ (of_int ylo <= (find_beam_center img 10).2
                /\ (find_beam_center img 10).2 <= of_int yhi))
         (data self) ->
  beam_center self = Some (x, y) ->
  (of_int xlo <= x /\ x <= of_int xhi) /\ (of_int ylo <= y /\ y <= of_int yhi).
Proof.
  intros (ff & h0 & ps & _ & _ & _ & _ & ->)%init_inv. cbn [data beam_center].
  intros Hbx Hby Hall. unfold get_average_beam_center.
  apply np_mean_axis0_between.
  - by apply Forall_map.
  - by rewrite !length_map.
  - by rewrite !length_map.
Qed.

End Construction.

Section Encoders.

Context {pixel hval : Type} {ext : Externals pixel hval}.

(** ** The adjusted center *)

Ltac Qc_cases :=
  unfold step_adjust, gtb in *;
  repeat case_bool_decide;
  unfold Qclt, Qcle, of_int, lit in *;
  unfold Qcplus, Qcmult, Qcopp, Qcminus in *;
  cbn [this Q2Qc] in *;
  rewrite ?Qred_correct in *;
  unfold inject_Z in *; lra.

(** X5: the center that [fixDistortion] hands to the stretch correction
    is the adjusted one; the adjustment never moves a coordinate downwards
    and keeps the order of two coordinates. *)
Theorem fixDistortion_center_monotone :
  (forall (image : list (list pixel)) (x y : Qc),
     exists x' y',
       fixDistortion image (Some (x, y))
       = Ok (apply_stretch_correction image (x', y') (- lit 6.61) (lit 2.43))
       /\ x' = step_adjust x /\ y' = step_adjust y
       /\ x <= x' /\ y <= y')
  /\ (forall u v : Qc, u <= v -> step_adjust u <= step_adjust v).
Proof.
  assert (Hb : forall v : Qc, v <= step_adjust v).
  { intros v. Qc_cases. }
  split.
  - intros image x y. exists (step_adjust x), (step_adjust y).
    rewrite fixDistortion_run. split; [done|]. split; [done|].
    split; [done|]. split; apply Hb.
  - intros u v Huv. Qc_cases.
Qed.

(** ** The stored end angle *)

(** X6: no encoder reads the end angle stored at construction: an instance
    that differs in it alone behaves the same in all five. *)
Theorem stored_endangle_is_not_read (self : ImgConversion) (r : Qc) :
  (forall path, writeTiff (with_endangle self r) path = writeTiff self path)
  /\ (forall path, writeIMG (with_endangle self r) path
                   = writeIMG self path)
  /\ (forall path, MRCCreator (with_endangle self r) path
                   = MRCCreator self path)
  /\ (forall path a, ED3DCreator (with_endangle self r) path a
                     = ED3DCreator self path a)
  /\ (forall path a, XDSINPCreator (with_endangle self r) path a
                     = XDSINPCreator self path a).
Proof. repeat split; reflexivity. Qed.

End Encoders.

(** ** File names *)

Lemma length_append (a b : string) :
  String.length (a +:+ b) = (String.length a + String.length b)%nat.
Proof.
  induction a as [|x a IH]; [done|]. rewrite append_cons. simpl. by rewrite IH.
Qed.

Lemma append_inj_r (a b e : string) : a +:+ e = b +:+ e -> a = b.
Proof.
  revert b. induction a as [|x a IH]; intros [|y b] H.
  - done.
  - apply (f_equal String.length) in H.
    rewrite append_nil_l, length_append in H. simpl in H. lia.
  - apply (f_equal String.length) in H.
    rewrite append_nil_l, length_append in H. simpl in H. lia.
  - rewrite !append_cons in H. injection H as -> H. f_equal. by apply IH.
Qed.

(** The decimal digits of a positive number start with a digit other than
    0. *)
Lemma pretty_N_go_head (x : N) (s : string) :
  (0 < x)%N -> exists c r, pretty_N_go x s = String c r /\ c <> "0"%char.
Proof.
  revert s. induction (N.lt_wf_0 x) as [x _ IH]; intros s Hx.
  rewrite pretty_N_go_step by done.
  destruct (decide (x < 10)%N) as [Hlt|Hge].
  - rewrite N.div_small, pretty_N_go_0 by done.
    rewrite N.mod_small by done. eexists _, _. split; [done|].
    assert (x = 1 \/ x = 2 \/ x = 3 \/ x = 4 \/ x = 5 \/ x = 6
            \/ x = 7 \/ x = 8 \/ x = 9)%N as Hc by lia.
    destruct Hc as [->|[->|[->|[->|[->|[->|[->|[->| ->]]]]]]]]; done.
  - apply IH.
    + apply N.div_lt; lia.
    + apply N.div_str_pos. lia.
Qed.

Lemma pretty_nat_head (j : nat) :
  pretty j = "0"
  \/ exists c r, pretty j = String c r /\ c <> "0"%char.
Proof.
  unfold pretty, pretty_nat, pretty, pretty_N.
  case_decide; [by left|right]. apply pretty_N_go_head. lia.
Qed.

(** [k] zeros. *)
Lemma zeros_S (k : nat) :
  String.concat "" (replicate (S k) "0")
  = String "0" (String.concat "" (replicate k "0")).
Proof. cbn [replicate]. by rewrite concat_cons. Qed.

Lemma zeros_prefix_inv (j : nat) (k : nat) (s : string) :
  s <> "" ->
  pretty j = String.concat "" (replicate k "0") +:+ s -> k = 0%nat.
Proof.
  intros Hs H. destruct k as [|k]; [done|]. exfalso.
  rewrite zeros_S, append_cons in H.
  destruct (pretty_nat_head j) as [E|(c & r & E & Hc)]; rewrite E in H.
  - injection H as H. destruct (String.concat "" (replicate k "0"));
      [by rewrite append_nil_l in H|done].
  - by injection H as -> _.
Qed.

Lemma pretty_nat_nonempty (j : nat) : pretty j <> "".
Proof.
  destruct (pretty_nat_head j) as [E|(c & r & E & _)]; by rewrite E.
Qed.

Lemma zeros_add (k d : nat) :
  String.concat "" (replicate (k + d) "0")
  = String.concat "" (replicate k "0") +:+ String.concat "" (replicate d "0").
Proof.
  induction k as [|k IH]; [done|].
  change (S k + d)%nat with (S (k + d)).
  by rewrite !zeros_S, IH, append_cons.
Qed.

Lemma fmt_05d_inj_le (i j : nat) :
  (String.length (pretty j) <= String.length (pretty i))%nat ->
  fmt_05d i = fmt_05d j -> i = j.
Proof.
  unfold fmt_05d. cbv zeta. intros Hlen H.
  replace (5 - String.length (pretty j))%nat
    with ((5 - String.length (pretty i))
          + ((5 - String.length (pretty j))
             - (5 - String.length (pretty i))))%nat in H by lia.
  rewrite zeros_add, append_assoc in H.
  apply String.app_inj in H.
  pose proof (zeros_prefix_inv i _ _ (pretty_nat_nonempty j) H) as Hd.
  rewrite Hd in H. cbn [replicate] in H.
  change (String.concat "" []) with "" in H. rewrite append_nil_l in H.
  by apply pretty_nat_inj in H.
Qed.

(** No two frames get the same five-digit name. *)
Lemma fmt_05d_inj (i j : nat) : fmt_05d i = fmt_05d j -> i = j.
Proof.
  intros H.
  destruct (Nat.le_ge_cases (String.length (pretty j))
              (String.length (pretty i))) as [Hle|Hle].
  - by apply fmt_05d_inj_le.
  - symmetry. by apply fmt_05d_inj_le.
Qed.

Section Files.

Context {pixel hval : Type} {ext : Externals pixel hval}.

Lemma mrc_files_cons (self : ImgConversion) (path : string) (c : Qc * Qc)
    (k : nat) (x : list (list pixel)) (l : list (list (list pixel)))
    (σ : gmap string file) :
  mrc_files self path c k (x :: l) σ
  = mrc_files self path c (S k) l
      (<[frame_name path k ".img" := mrc_file self c x]> σ).
Proof. reflexivity. Qed.

(** The loop of [MRCCreator] keeps the files with other names. *)
Lemma mrc_files_lookup_other (self : ImgConversion) (path : string)
    (c : Qc * Qc) (l : list (list (list pixel))) (k : nat)
    (σ : gmap string file) (fn : string) :
  (forall j, (j < length l)%nat -> fn <> frame_name path (k + j) ".img") ->
  mrc_files self path c k l σ !! fn = σ !! fn.
Proof.
  revert k σ. induction l as [|x l IH]; intros k σ Hfn; [done|].
  rewrite mrc_files_cons, IH.
  - apply lookup_insert_ne. intros E. apply (Hfn 0%nat); [simpl; lia|].
    by rewrite Nat.add_0_r.
  - intros j Hj. rewrite Nat.add_succ_l, <- Nat.add_succ_r.
    apply Hfn. simpl. lia.
Qed.

Lemma MRCCreator_lookup_other (self : ImgConversion) (path : string)
    (σ : gmap string file) (fn : string) :
  (forall i, (i < length (data self))%nat ->
             fn <> frame_name path i ".img") ->
  (MRCCreator self path σ).1 !! fn = σ !! fn.
Proof.
  intros Hfn. unfold MRCCreator.
  destruct (beam_center self) as [c|] eqn:Hc.
  - rewrite (MRCCreator_loop _ _ c) by done. cbn [fst].
    by apply mrc_files_lookup_other.
  - destruct (data self) as [|x l]; [done|].
    rewrite for_enumerate_cons. unfold MRCCreator_frame. rewrite Hc. done.
Qed.

(** X7: each encoder that writes with [open] changes its own files only:
    [ED3DCreator] the file [1.ed3d], [XDSINPCreator] the file [XDS.INP],
    and [MRCCreator] the files named after its frames; every other file is
    as before, also when the encoder raises. *)
Theorem encoders_keep_other_files (self : ImgConversion) (path : string)
    (a : Qc) (σ : gmap string file) (fn : string) :
  (fn <> os_path_join path "1.ed3d" ->
   (ED3DCreator self path a σ).1 !! fn = σ !! fn)
  /\ (fn <> os_path_join path "XDS.INP" ->
      (XDSINPCreator self path a σ).1 !! fn = σ !! fn)
  /\ ((forall i, (i < length (data self))%nat ->
                 fn <> os_path_join path (fmt_05d (i + 1) +:+ ".img")) ->
      (MRCCreator self path σ).1 !! fn = σ !! fn).
Proof.
  split; [|split].
  - intros Hfn. rewrite ED3DCreator_run. cbn [fst].
    by apply lookup_insert_ne.
  - intros Hfn. rewrite XDSINPCreator_run.
    destruct (beam_center self) as [[x y]|]; [|done]. cbn [fst].
    by apply lookup_insert_ne.
  - apply MRCCreator_lookup_other.
Qed.

(** Writes, one after the other, as the union with the map of the writes. *)
Lemma foldl_insert_union (l : list (string * file)) (σ : gmap string file) :
  foldl (fun σ p => <[p.1 := p.2]> σ) σ l
  = list_to_map (reverse l) ∪ σ.
Proof.
  revert σ. induction l as [|[k v] l IH]; intros σ.
  - rewrite reverse_nil, list_to_map_nil. cbn [foldl].
    by rewrite (left_id_L ∅ (∪)).
  - cbn [foldl]. rewrite IH, reverse_cons, list_to_map_app.
    rewrite <- (assoc_L (∪)). f_equal.
    rewrite list_to_map_cons, list_to_map_nil, insert_empty.
    by rewrite <- insert_union_singleton_l.
Qed.

Lemma mrc_files_idemp (self : ImgConversion) (path : string) (c : Qc * Qc)
    (k : nat) (l : list (list (list pixel))) (σ : gmap string file) :
  mrc_files self path c k l (mrc_files self path c k l σ)
  = mrc_files self path c k l σ.
Proof.
  assert (H : forall σ0 : gmap string file,
             mrc_files self path c k l σ0
             = list_to_map
                 (reverse
                    (map (fun p => (frame_name path p.1 ".img",
                                    mrc_file self c p.2))
                         (zip (seq k (length l)) l))) ∪ σ0).
  { intros σ0. rewrite <- foldl_insert_union. unfold mrc_files.
    generalize (zip (seq k (length l)) l) as L. intros L. revert σ0.
    induction L as [|p L IH]; intros σ0; [done|]. simpl. by rewrite IH. }
  by rewrite !H, (assoc_L (∪)), (idemp_L (∪)).
Qed.

(** X8: the encoders that write with [open] overwrite: a second call with
    the same arguments, on the files that the first call has left, succeeds
    and leaves them as they are. *)
Theorem encoders_idempotent (self : ImgConversion) (path : string) (a : Qc)
    (σ σ1 : gmap string file) :
  (ED3DCreator self path a σ = (σ1, Ok ()) ->
   ED3DCreator self path a σ1 = (σ1, Ok ()))
  /\ (XDSINPCreator self path a σ = (σ1, Ok ()) ->
      XDSINPCreator self path a σ1 = (σ1, Ok ()))
  /\ (MRCCreator self path σ = (σ1, Ok ()) ->
      MRCCreator self path σ1 = (σ1, Ok ())).
Proof.
  split; [|split].
  - rewrite !ED3DCreator_run. intros [= <-]. by rewrite insert_insert_eq.
  - rewrite !XDSINPCreator_run.
    destruct (beam_center self) as [[x y]|]; [|done].
    intros [= <-]. by rewrite insert_insert_eq.
  - unfold MRCCreator. destruct (beam_center self) as [c|] eqn:Hc.
    + rewrite !(MRCCreator_loop _ _ c) by done. intros [= <-].
      by rewrite mrc_files_idemp.
    + destruct (data self) as [|x l]; [by intros [= <-]|].
      rewrite for_enumerate_cons. unfold MRCCreator_frame. by rewrite Hc.
Qed.

Lemma frame_name_inj (path extension : string) (i j : nat) :
  (forall n m, os_path_join path n = os_path_join path m -> n = m) ->
  frame_name path i extension = frame_name path j extension -> i = j.
Proof.
  intros Hinj H. unfold frame_name in H.
  apply Hinj, append_inj_r, fmt_05d_inj in H. lia.
Qed.

Lemma mrc_files_lookup (self : ImgConversion) (path : string) (c : Qc * Qc)
    (l : list (list (list pixel))) (k i : nat) (img : list (list pixel))
    (σ : gmap string file) :
  (forall n m, os_path_join path n = os_path_join path m -> n = m) ->
  l !! i = Some img ->
  mrc_files self path c k l σ !! frame_name path (k + i) ".img"
  = Some (mrc_file self c img).
Proof.
  intros Hinj. revert k i σ.
  induction l as [|x l IH]; intros k i σ Hi; [done|].
  rewrite mrc_files_cons. destruct i as [|i].
  - injection Hi as ->. rewrite Nat.add_0_r, mrc_files_lookup_other.
    + apply lookup_insert_eq.
    + intros j _ E. apply frame_name_inj in E; [lia|done].
  - rewrite <- Nat.add_succ_comm. by apply IH.
Qed.

(** X9: when [os.path.join] gives different paths for different file names,
    no frame overwrites the file of another: after [MRCCreator] on an
    instance that [__init__] has built, the file with the 1-based five-digit
    name of frame i holds the 1024 bytes of the header and then the bytes of
    frame i itself. *)
Theorem MRCCreator_file_of_frame buffer cl os sa ea ra rr ffn b self path
    (σ : gmap string file) (i : nat) (img : list (list pixel)) :
  __init__ buffer cl os sa ea ra rr ffn = (b, Ok self) ->
  (forall n m, os_path_join path n = os_path_join path m -> n = m) ->
  data self !! i = Some img ->
  exists c,
    beam_center self = Some c
    /\ (MRCCreator self path σ).1
         !! os_path_join path (fmt_05d (i + 1) +:+ ".img")
       = Some (Binary (mrc_header_literal
                       ++ tobytes (apply_stretch_correction
                                     (reverse (map (map np_int16) img))
                                     (step_adjust c.1, step_adjust c.2)
                                     (- lit 6.61) (lit 2.43)))).
Proof.
  intros (ff & h0 & ps & _ & _ & _ & _ & ->)%init_inv Hinj.
  match goal with |- context [beam_center ?s] => set (self := s) end.
  intros Hi.
  destruct (beam_center self) as [c|] eqn:Hc.
  - exists c. split; [done|]. unfold MRCCreator.
    rewrite (MRCCreator_loop _ _ c) by done. cbn [fst].
    by rewrite (mrc_files_lookup self path c _ 0 i img).
  - exfalso. subst self. simpl in *. unfold get_average_beam_center in Hc.
    destruct buffer; [done|discriminate Hc].
Qed.

End Files.

Section Repacking.

Context {pixel hval : Type} {ext : Externals pixel hval}.

Lemma broadcast_to_ok {A} (h w sw : nat) (src : list (list A)) :
  length src = h -> h <> 0%nat -> Forall (fun r => length r = sw) src ->
  sw = w \/ sw = 1%nat ->
  exists blk, broadcast_to h w src = Ok blk.
Proof.
  intros Hh Hne Hw Hsw. unfold broadcast_to.
  rewrite (shape_intro src h sw) by done. rewrite Nat.eqb_refl.
  cbn [orb andb].
  destruct Hsw as [->| ->].
  - rewrite Nat.eqb_refl. cbn [orb]. by eexists.
  - rewrite Nat.eqb_refl, orb_true_r. by eexists.
Qed.

Lemma broadcast_to_fail {A} (h w sw : nat) (src : list (list A)) :
  length src = h -> h <> 0%nat -> Forall (fun r => length r = sw) src ->
  sw <> w -> sw <> 1%nat ->
  broadcast_to h w src = Raise ValueError.
Proof.
  intros Hh Hne Hw Hsw Hs1. unfold broadcast_to.
  rewrite (shape_intro src h sw) by done.
  rewrite (proj2 (Nat.eqb_neq sw w)), (proj2 (Nat.eqb_neq sw 1)) by done.
  by rewrite andb_false_r.
Qed.

Lemma setitem2_ok {A} (t : list (list A)) r0 r1 c0 c1 src (sw : nat) :
  length src = (r1 - r0)%nat -> (r0 < r1)%nat ->
  Forall (fun r => length r = sw) src ->
  sw = (c1 - c0)%nat \/ sw = 1%nat ->
  exists t', setitem2 t r0 r1 c0 c1 src = Ok t'.
Proof.
  intros Hl Hr Hw Hsw. unfold setitem2.
  destruct (broadcast_to_ok (r1 - r0) (c1 - c0) sw src) as [blk ->];
    [done|lia|done|done|].
  by eexists.
Qed.

Lemma setitem2_fail {A} (t : list (list A)) r0 r1 c0 c1 src (sw : nat) :
  length src = (r1 - r0)%nat -> (r0 < r1)%nat ->
  Forall (fun r => length r = sw) src ->
  sw <> (c1 - c0)%nat -> sw <> 1%nat ->
  setitem2 t r0 r1 c0 c1 src = Raise ValueError.
Proof.
  intros Hl Hr Hw Hsw Hs1. unfold setitem2.
  by rewrite (broadcast_to_fail (r1 - r0) (c1 - c0) sw src) by (done || lia).
Qed.

Lemma result_bind_Raise {B C} (e : exn) (f : B -> result C) :
  Raise e ≫= f = Raise e.
Proof. reflexivity. Qed.

(** X10: the re-packing looks at the number of rows only. On an image of
    516 rows whose rows are w long, the slices have the shapes that the
    four assignments need, or broadcast to them, exactly when w is 516 or
    261; for every other width the re-packing raises [ValueError]. *)
Theorem repack_516_rows (img : list (list pixel)) (w : nat) :
  shape img = Some (516, w)%nat ->
  (w = 516%nat \/ w = 261%nat ->
   exists out, repack img = Ok out
               /\ length out = 512%nat
               /\ Forall (fun r => length r = 512%nat) out)
  /\ (w <> 516%nat -> w <> 261%nat -> repack img = Raise ValueError).
Proof.
  intros [Hlen Hrows]%shape_Some.
  assert (HA : length (slice 0 256 img) = 256%nat)
    by (rewrite slice_0, length_take; lia).
  assert (HB : length (drop 260 img) = 256%nat)
    by (rewrite length_drop; lia).
  assert (Hl : forall R : list (list pixel),
            Forall (fun r => length r = w) R ->
            Forall (fun r => length r = (256 `min` w)%nat)
                   (map (slice 0 256) R)).
  { intros R HR. apply Forall_map. eapply Forall_impl; [exact HR|].
    intros r Hr. cbv beta. by rewrite slice_0, length_take, Hr. }
  assert (Hr : forall R : list (list pixel),
            Forall (fun r => length r = w) R ->
            Forall (fun r => length r = (w - 260)%nat) (map (drop 260) R)).
  { intros R HR. apply Forall_map. eapply Forall_impl; [exact HR|].
    intros r Hr. cbv beta. by rewrite length_drop, Hr. }
  assert (HAr : Forall (fun r => length r = w) (slice 0 256 img))
    by (rewrite slice_0; by apply Forall_take).
  assert (HBr : Forall (fun r => length r = w) (drop 260 img))
    by (by apply Forall_drop).
  assert (Hsteps :
    (256 `min` w = 256 \/ 256 `min` w = 1)%nat ->
    (w - 260 = 256 \/ w - 260 = 1)%nat ->
    exists out, repack img = Ok out).
  { intros H1 H3. unfold repack, slice2. rewrite Hlen, Nat.eqb_refl.
    edestruct (setitem2_ok (np_zeros ushort_zero 512 512) 0 256 0 256)
      as [t1 ->]; [| |apply (Hl _ HAr)|exact H1|];
      [by rewrite length_map|lia|].
    rewrite result_bind_Ok.
    edestruct (setitem2_ok t1 256 512 0 256)
      as [t2 ->]; [| |apply (Hl _ HBr)|exact H1|];
      [by rewrite length_map|lia|].
    rewrite result_bind_Ok.
    edestruct (setitem2_ok t2 0 256 256 512)
      as [t3 ->]; [| |apply (Hr _ HAr)|exact H3|];
      [by rewrite length_map|lia|].
    rewrite result_bind_Ok.
    edestruct (setitem2_ok t3 256 512 256 512)
      as [t4 ->]; [| |apply (Hr _ HBr)|exact H3|];
      [by rewrite length_map|lia|].
    rewrite result_bind_Ok. by eexists. }
  split.
  - intros Hw. destruct Hsteps as [out Hout]; [lia|lia|].
    exists out. split; [done|]. by apply (repack_dims img).
  - intros H516 H261. unfold repack, slice2. rewrite Hlen, Nat.eqb_refl.
    destruct (decide (256 `min` w = 256 \/ 256 `min` w = 1)%nat) as [H1|H1].
    + edestruct (setitem2_ok (np_zeros ushort_zero 512 512) 0 256 0 256)
        as [t1 ->]; [| |apply (Hl _ HAr)|exact H1|];
        [by rewrite length_map|lia|].
      rewrite result_bind_Ok.
      edestruct (setitem2_ok t1 256 512 0 256)
        as [t2 ->]; [| |apply (Hl _ HBr)|exact H1|];
        [by rewrite length_map|lia|].
      rewrite result_bind_Ok.
      rewrite (setitem2_fail t2 0 256 256 512 _ (w - 260));
        [done|by rewrite length_map|lia|apply (Hr _ HAr)|lia|lia].
    + rewrite (setitem2_fail _ 0 256 0 256 _ (256 `min` w));
        [done|by rewrite length_map|lia|apply (Hl _ HAr)|lia|lia].
Qed.

End Repacking.

(** * Properties of instamatic.io *)

Section WorkspaceProperties.

Context {ws : Workspace}.

Lemma subdirectory_name_inj (stem : string) (n m : Z) :
  subdirectory_name stem n = subdirectory_name stem m -> n = m.
Proof.
  unfold subdirectory_name. intros H.
  apply String.app_inj, String.app_inj in H. by apply pretty_Z_inj in H.
Qed.

(** What the loop returns, and what it has seen on its way. *)
Lemma first_free_path_Some (fuel : nat) (disk : gset string)
    (drc stem : string) (number : Z) (path : string) :
  first_free_path fuel disk drc stem number = Some path ->
  exists n : Z,
    (number <= n < number + Z.of_nat fuel)%Z
    /\ path = path_join drc (subdirectory_name stem n)
    /\ (path ∉ disk)
    /\ forall m : Z, (number <= m < n)%Z ->
                     path_join drc (subdirectory_name stem m) ∈ disk.
Proof.
  revert number. induction fuel as [|fuel IH]; intros number; [done|].
  cbn [first_free_path]. cbv zeta. case_decide as Hin.
  - intros (n & Hn & -> & Hout & Hall)%IH. exists n.
    split; [lia|]. split; [done|]. split; [done|].
    intros m Hm. destruct (decide (m = number)) as [->|Hne]; [done|].
    apply Hall. lia.
  - intros [= <-]. exists number. split; [lia|]. split; [done|].
    split; [done|]. intros m Hm. lia.
Qed.

(** When the loop runs out of tests, every path it has tested exists. *)
Lemma first_free_path_None (fuel : nat) (disk : gset string)
    (drc stem : string) (number : Z) :
  first_free_path fuel disk drc stem number = None ->
  forall i : nat, (i < fuel)%nat ->
    path_join drc (subdirectory_name stem (number + Z.of_nat i)) ∈ disk.
Proof.
  revert number. induction fuel as [|fuel IH]; intros number H i Hi; [lia|].
  cbn [first_free_path] in H. cbv zeta in H. case_decide as Hin; [|done].
  destruct i as [|i].
  - by rewrite Z.add_0_r.
  - replace (number + Z.of_nat (S i))%Z with (number + 1 + Z.of_nat i)%Z
      by lia.
    apply IH; [done|lia].
Qed.

(** The loop ends: more tests than there are paths on the disk find a free
    one, as the names of different numbers are different paths. *)
Lemma first_free_path_total (fuel : nat) (disk : gset string)
    (drc stem : string) (number : Z) :
  (forall a b, path_join drc a = path_join drc b -> a = b) ->
  (size disk < fuel)%nat ->
  is_Some (first_free_path fuel disk drc stem number).
Proof.
  intros Hinj Hsize.
  destruct (first_free_path fuel disk drc stem number) eqn:E; [done|].
  exfalso. pose proof (first_free_path_None _ _ _ _ _ E) as Hall.
  set (L := (fun i : nat =>
               path_join drc (subdirectory_name stem (number + Z.of_nat i)))
            <$> seq 0 fuel).
  assert (HL : NoDup L).
  { apply NoDup_fmap_2; [|apply NoDup_seq].
    intros i j Hij. apply Hinj, subdirectory_name_inj in Hij. lia. }
  assert (Hsub : list_to_set (C := gset string) L ⊆ disk).
  { intros p Hp. apply elem_of_list_to_set, list_elem_of_fmap in Hp.
    destruct Hp as [q [-> Hq%elem_of_seq]]. apply Hall. lia. }
  apply subseteq_size in Hsub. rewrite size_list_to_set in Hsub by done.
  unfold L in Hsub. rewrite length_fmap, length_seq in Hsub. lia.
Qed.

(** X11: with more fuel than there are paths on the disk, and different
    names giving different paths, [get_new_work_subdirectory] returns the
    subdirectory of the first number from [number] on whose path does not
    exist yet, in the given directory or, without one, in the work directory
    of the configuration; the paths of the numbers before it exist. The
    disk keeps what it had; it gains the directory when [mkdir] is set and
    is unchanged otherwise. More fuel gives the same. *)
Theorem new_work_subdirectory_is_first_free (fuel : nat) (stem : string)
    (drc : option string) (number : Z) (mkdir : bool) (disk : gset string) :
  (forall d a b, path_join d a = path_join d b -> a = b) ->
  (size disk < fuel)%nat ->
  exists disk' path n,
    get_new_work_subdirectory fuel stem drc number mkdir disk
    = Some (disk', path)
    /\ (number <= n)%Z
    /\ path = path_join
                (match drc with
                 | None => work_directory
                 | Some d => if decide (d = "") then work_directory else d
                 end)
                (stem +:+ "_" +:+ pretty n)
    /\ (path ∉ disk)
    /\ (forall m : Z,
          (number <= m < n)%Z ->
          path_join
            (match drc with
             | None => work_directory
             | Some d => if decide (d = "") then work_directory else d
             end)
            (stem +:+ "_" +:+ pretty m) ∈ disk)
    /\ disk ⊆ disk'
    /\ (mkdir = true -> path ∈ disk')
    /\ (mkdir = false -> disk' = disk)
    /\ (forall fuel', (fuel <= fuel')%nat ->
          get_new_work_subdirectory fuel' stem drc number mkdir disk
          = Some (disk', path)).
Proof.
  intros Hinj Hsize. unfold get_new_work_subdirectory.
  set (d := match drc with
            | None => work_directory
            | Some d => if decide (d = "") then work_directory else d
            end).
  destruct (first_free_path_total fuel disk d stem number (Hinj d) Hsize)
    as [path Hpath].
  rewrite Hpath. cbn [mbind option_bind].
  destruct (first_free_path_Some _ _ _ _ _ _ Hpath)
    as (n & Hn & Hp & Hout & Hbefore).
  eexists _, path, n. split; [reflexivity|]. split; [lia|].
  split; [exact Hp|]. split; [exact Hout|]. split; [exact Hbefore|].
  split; [|split; [|split]].
  - destruct mkdir; [|done]. unfold mkdir_parents.
    intros x Hx. by apply elem_of_union_l, elem_of_union_l.
  - intros ->. unfold mkdir_parents.
    by apply elem_of_union_r, elem_of_singleton.
  - by intros ->.
  - intros fuel' Hfuel.
    destruct (first_free_path_total fuel' disk d stem number (Hinj d))
      as [path' Hpath']; [lia|].
    rewrite Hpath'. cbn [mbind option_bind].
    destruct (first_free_path_Some _ _ _ _ _ _ Hpath')
      as (n' & Hn' & Hp' & Hout' & Hbefore').
    assert (n' = n) as ->.
    { destruct (Z.lt_trichotomy n' n) as [Hlt|[Heq|Hgt]]; [|done|].
      - exfalso. apply Hout'. rewrite Hp'. apply Hbefore. lia.
      - exfalso. apply Hout. rewrite Hp. apply Hbefore'. lia. }
    by rewrite Hp', <- Hp.
Qed.

(** X12: a directory made by one call is never returned again: a later
    call, whatever its arguments, finds the directory of the first call on
    the disk and returns another path. *)
Theorem new_work_subdirectories_are_distinct (fuel fuel' : nat)
    (stem stem' : string) (drc drc' : option string) (number number' : Z)
    (mkdir' : bool) (disk disk1 disk2 : gset string) (p1 p2 : string) :
  get_new_work_subdirectory fuel stem drc number true disk
  = Some (disk1, p1) ->
  get_new_work_subdirectory fuel' stem' drc' number' mkdir' disk1
  = Some (disk2, p2) ->
  p1 <> p2 /\ p1 ∈ disk2.
Proof.
  unfold get_new_work_subdirectory.
  destruct (first_free_path fuel _ _ _ _) as [q1|] eqn:E1; [|done].
  cbn [mbind option_bind]. intros [= <- <-].
  destruct (first_free_path fuel' _ _ _ _) as [q2|] eqn:E2; [|done].
  cbn [mbind option_bind]. intros [= <- <-].
  apply first_free_path_Some in E2 as (n & _ & _ & Hout & _).
  assert (Hin : q1 ∈ mkdir_parents q1 disk).
  { unfold mkdir_parents. by apply elem_of_union_r, elem_of_singleton. }
  split; [by intros ->|].
  destruct mkdir'; [|done]. unfold mkdir_parents at 1.
  by apply elem_of_union_l, elem_of_union_l.
Qed.

End WorkspaceProperties.

(** The directories [/work/experiment_1] and [/work/experiment_2]. *)
Lemma demo_path_join_inj (d a b : string) :
  path_join (Workspace := demo_workspace) d a
  = path_join (Workspace := demo_workspace) d b -> a = b.
Proof. cbn. intros H. by apply String.app_inj, String.app_inj in H. Qed.

Lemma new_work_subdirectory_is_first_free_witness :
  (size ({["/work/experiment_1"; "/work/experiment_2"]} : gset string)
   < 3)%nat
  /\ exists disk',
       get_new_work_subdirectory (ws := demo_workspace) 3 "experiment" None
         1 true {["/work/experiment_1"; "/work/experiment_2"]}
       = Some (disk', "/work/experiment_3").
Proof.
  assert (Hs : (size ({["/work/experiment_1"; "/work/experiment_2"]}
                        : gset string) < 3)%nat)
    by (vm_compute; lia).
  split; [exact Hs|].
  destruct (new_work_subdirectory_is_first_free (ws := demo_workspace)
              3 "experiment" None 1 true
              {["/work/experiment_1"; "/work/experiment_2"]}
              demo_path_join_inj Hs)
    as (disk' & path & n & Hget & _).
  exists disk'. rewrite Hget. f_equal. f_equal.
  assert (E : get_new_work_subdirectory (ws := demo_workspace) 3
                "experiment" None 1 true
                {["/work/experiment_1"; "/work/experiment_2"]}
              = Some ({["/work/experiment_1"; "/work/experiment_2";
                        "/work"; "/work/experiment_3"]},
                      "/work/experiment_3"))
    by (vm_compute; reflexivity).
  rewrite E in Hget. by injection Hget as _ <-.
Defined.

Lemma new_work_subdirectories_are_distinct_witness :
  get_new_work_subdirectory (ws := demo_workspace) 3 "experiment" None
    1 true {["/work/experiment_1"]}
  = Some (mkdir_parents (ws := demo_workspace) "/work/experiment_2"
            {["/work/experiment_1"]},
          "/work/experiment_2")
  /\ get_new_work_subdirectory (ws := demo_workspace) 4 "experiment" None
       1 false
       (mkdir_parents (ws := demo_workspace) "/work/experiment_2"
          {["/work/experiment_1"]})
     = Some (mkdir_parents (ws := demo_workspace) "/work/experiment_2"
               {["/work/experiment_1"]},
             "/work/experiment_3")
  /\ "/work/experiment_2" <> "/work/experiment_3".
Proof.
  assert (H1 : get_new_work_subdirectory (ws := demo_workspace) 3
                 "experiment" None 1 true {["/work/experiment_1"]}
               = Some (mkdir_parents (ws := demo_workspace)
                         "/work/experiment_2" {["/work/experiment_1"]},
                       "/work/experiment_2"))
    by (vm_compute; reflexivity).
  assert (H2 : get_new_work_subdirectory (ws := demo_workspace) 4
                 "experiment" None 1 false
                 (mkdir_parents (ws := demo_workspace) "/work/experiment_2"
                    {["/work/experiment_1"]})
               = Some (mkdir_parents (ws := demo_workspace)
                         "/work/experiment_2" {["/work/experiment_1"]},
                       "/work/experiment_3"))
    by (vm_compute; reflexivity).
  split; [exact H1|]. split; [exact H2|].
  exact (proj1 (new_work_subdirectories_are_distinct (ws := demo_workspace)
                  _ _ _ _ _ _ _ _ _ _ _ _ _ _ H1 H2)).
Defined.

(** * The further properties on the small environment *)

Lemma init_without_flatfield_witness :
  read_tiff (Externals := demo_without_flatfield)
    (os_path_join (Externals := demo_without_flatfield)
       (curdir (Externals := demo_without_flatfield)) "flatfield.tiff")
  = Raise (IOError "/opt/instamatic/cred/flatfield.tiff")
  /\ __init__ (ext := demo_without_flatfield) demo_buffer 250
       (lit 0.5) (lit 10.0) (lit 11.0) (lit 0.9) (lit 20, lit 0.8)
       "flatfield.tiff"
     = (demo_buffer, Raise (IOError "/opt/instamatic/cred/flatfield.tiff")).
Proof.
  assert (Hr : read_tiff (Externals := demo_without_flatfield)
                 (os_path_join (Externals := demo_without_flatfield)
                    (curdir (Externals := demo_without_flatfield))
                    "flatfield.tiff")
               = Raise (IOError "/opt/instamatic/cred/flatfield.tiff"))
    by reflexivity.
  split; [exact Hr|].
  exact (init_without_flatfield (ext := demo_without_flatfield)
           demo_buffer 250 (lit 0.5) (lit 10.0) (lit 11.0) (lit 0.9)
           (lit 20, lit 0.8) "flatfield.tiff" _ Hr).
Defined.

Lemma init_failure_drains_buffer_witness :
  read_tiff (Externals := demo 9 demo_table)
    (os_path_join (Externals := demo 9 demo_table)
       (curdir (Externals := demo 9 demo_table)) "flatfield.tiff")
  = Ok ([[1%Z]], ∅)
  /\ demo_table !! 7%Z = None
  /\ demo_init 9 7 demo_buffer = ([], Raise KeyError).
Proof.
  assert (Hr : read_tiff (Externals := demo 9 demo_table)
                 (os_path_join (Externals := demo 9 demo_table)
                    (curdir (Externals := demo 9 demo_table))
                    "flatfield.tiff")
               = Ok ([[1%Z]], ∅)) by reflexivity.
  assert (Ht : demo_table !! 7%Z = None) by (vm_compute; reflexivity).
  split; [exact Hr|]. split; [exact Ht|].
  exact (proj1 (proj2 (init_failure_drains_buffer (ext := demo 9 demo_table)
                         demo_buffer 7 (lit 0.5) (lit 10.0) (lit 11.0)
                         (lit 0.9) (lit 20, lit 0.8) "flatfield.tiff" _ _ Hr))
               Ht).
Defined.

Lemma XDSINPCreator_needs_a_frame_witness :
  demo_init 9 250 demo_buffer = ([], Ok demo_self)
  /\ (beam_center demo_self = None <-> demo_buffer = [])
  /\ exists s,
       XDSINPCreator (ext := demo 9 demo_table) demo_self "out" (lit 0.9) ∅
       = (<["out/XDS.INP" := Text s]> ∅, Ok ()).
Proof.
  pose proof (demo_init_250 9) as H.
  split; [exact H|]. unfold demo_init in H.
  destruct (XDSINPCreator_needs_a_frame (ext := demo 9 demo_table)
              _ _ _ _ _ _ _ _ _ _ "out" (lit 0.9) ∅ H) as (Hb & _ & Hx).
  split; [exact Hb|]. apply Hx. discriminate.
Defined.

Lemma beam_center_within_bounds_witness :
  demo_init 9 250 demo_buffer = ([], Ok demo_self)
  /\ (Z.of_nat (length demo_buffer) * Z.max (Z.abs 100) (Z.abs 102)
      < 2 ^ 53)%Z
  /\ (Z.of_nat (length demo_buffer) * Z.max (Z.abs 119) (Z.abs 121)
      < 2 ^ 53)%Z
  /\ beam_center demo_self = Some (of_int 101, of_int 120)
  /\ (of_int 100 <= of_int 101 /\ of_int 101 <= of_int 102)
  /\ (of_int 119 <= of_int 120 /\ of_int 120 <= of_int 121).
Proof.
  pose proof (demo_init_250 9) as H.
  assert (Hx : (Z.of_nat (length demo_buffer)
                * Z.max (Z.abs 100) (Z.abs 102) < 2 ^ 53)%Z)
    by (vm_compute; reflexivity).
  assert (Hy : (Z.of_nat (length demo_buffer)
                * Z.max (Z.abs 119) (Z.abs 121) < 2 ^ 53)%Z)
    by (vm_compute; reflexivity).
  split; [exact H|]. split; [exact Hx|]. split; [exact Hy|].
  split; [exact demo_beam_center|]. unfold demo_init in H.
  apply (beam_center_within_bounds (ext := demo 9 demo_table)
           _ _ _ _ _ _ _ _ _ _ 100 102 119 121 _ _ H Hx Hy);
    [|exact demo_beam_center].
  repeat constructor; vm_compute; discriminate.
Defined.

Lemma fixDistortion_center_monotone_witness :
  lit 255.5 <= lit 256.5 /\ step_adjust (lit 255.5) <= step_adjust (lit 256.5).
Proof.
  assert (H : lit 255.5 <= lit 256.5) by (vm_compute; discriminate).
  split; [exact H|].
  exact (proj2 (fixDistortion_center_monotone (ext := demo 9 demo_table))
           _ _ H).
Defined.

Lemma encoders_keep_other_files_witness :
  "notes.txt" <> "out/1.ed3d"
  /\ (ED3DCreator (ext := demo 9 demo_table) demo_self "out" (lit 0.9)
        {["notes.txt" := Text "kept"]}).1 !! "notes.txt"
     = Some (Text "kept").
Proof.
  assert (H : "notes.txt" <> "out/1.ed3d") by discriminate.
  split; [exact H|].
  exact (proj1 (encoders_keep_other_files (ext := demo 9 demo_table)
                  demo_self "out" (lit 0.9) {["notes.txt" := Text "kept"]}
                  "notes.txt") H).
Defined.

Lemma encoders_idempotent_witness :
  MRCCreator (ext := demo 9 demo_table) demo_self "out" ∅
  = (<["out/00003.img" := Binary mrc_header_literal]>
       (<["out/00002.img" := Binary mrc_header_literal]>
          (<["out/00001.img" := Binary mrc_header_literal]> ∅)),
     Ok ())
  /\ MRCCreator (ext := demo 9 demo_table) demo_self "out"
       (<["out/00003.img" := Binary mrc_header_literal]>
          (<["out/00002.img" := Binary mrc_header_literal]>
             (<["out/00001.img" := Binary mrc_header_literal]> ∅)))
     = (<["out/00003.img" := Binary mrc_header_literal]>
          (<["out/00002.img" := Binary mrc_header_literal]>
             (<["out/00001.img" := Binary mrc_header_literal]> ∅)),
        Ok ()).
Proof.
  assert (H : MRCCreator (ext := demo 9 demo_table) demo_self "out" ∅
              = (<["out/00003.img" := Binary mrc_header_literal]>
                   (<["out/00002.img" := Binary mrc_header_literal]>
                      (<["out/00001.img" := Binary mrc_header_literal]> ∅)),
                 Ok ())) by (vm_compute; reflexivity).
  split; [exact H|].
  exact (proj2 (proj2 (encoders_idempotent (ext := demo 9 demo_table)
                         demo_self "out" (lit 0.9) ∅ _)) H).
Defined.

Lemma demo_os_path_join_inj (quota : nat) (path n m : string) :
  os_path_join (Externals := demo quota demo_table) path n
  = os_path_join (Externals := demo quota demo_table) path m -> n = m.
Proof. cbn. intros H. by apply String.app_inj, String.app_inj in H. Qed.

Lemma MRCCreator_file_of_frame_witness :
  demo_init 9 250 demo_buffer = ([], Ok demo_self)
  /\ data demo_self !! 1%nat = Some [[101; 121]; [5; 6]]%Z
  /\ (MRCCreator (ext := demo 9 demo_table) demo_self "out" ∅).1
       !! "out/00002.img"
     = Some (Binary mrc_header_literal).
Proof.
  pose proof (demo_init_250 9) as H.
  assert (Hd : data demo_self !! 1%nat = Some [[101; 121]; [5; 6]]%Z)
    by reflexivity.
  split; [exact H|]. split; [exact Hd|]. unfold demo_init in H.
  destruct (MRCCreator_file_of_frame (ext := demo 9 demo_table)
              _ _ _ _ _ _ _ _ _ _ "out" ∅ 1 _ H
              (demo_os_path_join_inj 9 "out") Hd) as (c & _ & Hf).
  etrans; [exact Hf|]. reflexivity.
Defined.

Lemma repack_516_rows_witness :
  shape demo_516_narrow = Some (516, 100)%nat
  /\ repack (ext := demo 9 demo_table) demo_516_narrow = Raise ValueError.
Proof.
  assert (Hs : shape demo_516_narrow = Some (516, 100)%nat)
    by (vm_compute; reflexivity).
  split; [exact Hs|].
  apply (proj2 (repack_516_rows (ext := demo 9 demo_table)
                  demo_516_narrow 100 Hs)); discriminate.
Defined.

(** * Properties of the stage calibration *)

Module StageProperties.
Import Stage.

Section Calibration.

Context {hw img translation matrix vector : Type}
        {scope : Microscope hw img translation matrix vector}.

Lemma tem_bind_Done {A B} (m : tem hw A) (f : A -> tem hw B) w w' a :
  m w = (w', Done a) -> (m ≫= f) w = f a w'.
Proof. intros H. unfold mbind, tem_bind. by rewrite H. Qed.

Lemma tem_bind_Raised {A B} (m : tem hw A) (f : A -> tem hw B) w w' e :
  m w = (w', Raised e) -> (m ≫= f) w = (w', Raised e).
Proof. intros H. unfold mbind, tem_bind. by rewrite H. Qed.

Lemma on_hw_Done {A} (c : hw -> hw * outcome A) h h' σ r :
  c h = (h', r) -> on_hw c (h, σ) = ((h', σ), r).
Proof. intros H. unfold on_hw. cbn [fst snd]. by rewrite H. Qed.

(** X13: [calibrate_stage] refuses the pixel sizes 1.0 and 0.0 of the
    calibration table with the [ValueError] of line 182. By then it has set
    the mode and the magnification of the microscope when both were given,
    and read them otherwise; it has not moved the stage, taken an image or
    written a file. *)
Theorem calibrate_stage_invalid_pixelsize (mode : option string)
    (mag : option Z) (overlap stage_length : Qc) (min_n_step max_n_step : Z)
    (plot : bool) (drc : option string) (h h1 h2 : hw)
    (σ : gmap string file) (m : string) (g : Z) (c : gmap string (gmap Z Qc))
    (table : gmap Z Qc) (p : Qc) :
  calibration !! m = Some c ->
  c !! "pixelsize" = Some table ->
  table !! g = Some p ->
  p = lit 1.0 \/ p = lit 0.0 ->
  (both_given mode mag = Some (m, g) ->
   mode_set m h = (h1, Done ()) ->
   magnification_set g h1 = (h2, Done ()) ->
   calibrate_stage mode mag overlap stage_length min_n_step max_n_step
     plot drc (h, σ)
   = ((h2, σ), Raised (InvalidPixelsize m g p)))
  /\ (both_given mode mag = None ->
      mode_get h = (h1, Done m) ->
      magnification_get h1 = (h2, Done g) ->
      calibrate_stage mode mag overlap stage_length min_n_step max_n_step
        plot drc (h, σ)
      = ((h2, σ), Raised (InvalidPixelsize m g p))).
Proof.
  intros Hc Ht Hp Hbad. split.
  - intros Hg H1 H2. unfold calibrate_stage. rewrite Hg.
    erewrite tem_bind_Done; cycle 1.
    { erewrite tem_bind_Done by (by apply on_hw_Done).
      erewrite tem_bind_Done by (by apply on_hw_Done). reflexivity. }
    cbv beta iota. rewrite Hc, Ht, Hp.
    erewrite tem_bind_Done by reflexivity.
    by rewrite decide_True.
  - intros Hg H1 H2. unfold calibrate_stage. rewrite Hg.
    erewrite tem_bind_Done; cycle 1.
    { erewrite tem_bind_Done by (by apply on_hw_Done).
      erewrite tem_bind_Done by (by apply on_hw_Done). reflexivity. }
    cbv beta iota. rewrite Hc, Ht, Hp.
    erewrite tem_bind_Done by reflexivity.
    by rewrite decide_True.
Qed.

(** X14: a mode or a magnification without a pixel size in the
    calibration table ends [calibrate_stage] with [KeyError], at the same
    point as a refused pixel size: after the mode and the magnification
    have been set, and before the stage is moved. *)
Theorem calibrate_stage_missing_pixelsize (mode : option string)
    (mag : option Z) (overlap stage_length : Qc) (min_n_step max_n_step : Z)
    (plot : bool) (drc : option string) (h h1 h2 : hw)
    (σ : gmap string file) (m : string) (g : Z) :
  both_given mode mag = Some (m, g) ->
  mode_set m h = (h1, Done ()) ->
  magnification_set g h1 = (h2, Done ()) ->
  (calibration !! m = None
   \/ (exists c, calibration !! m = Some c /\ c !! "pixelsize" = None)
   \/ (exists c table, calibration !! m = Some c
                       /\ c !! "pixelsize" = Some table
                       /\ table !! g = None)) ->
  calibrate_stage mode mag overlap stage_length min_n_step max_n_step
    plot drc (h, σ)
  = ((h2, σ), Raised MissingKey).
Proof.
  intros Hg H1 H2 Hmiss. unfold calibrate_stage. rewrite Hg.
  erewrite tem_bind_Done; cycle 1.
  { erewrite tem_bind_Done by (by apply on_hw_Done).
    erewrite tem_bind_Done by (by apply on_hw_Done). reflexivity. }
  cbv beta iota.
  destruct Hmiss as [Hc|[(c & Hc & Ht)|(c & table & Hc & Ht & Hp)]].
  - by rewrite Hc.
  - by rewrite Hc, Ht.
  - by rewrite Hc, Ht, Hp.
Qed.

(** ** The scan *)

Lemma tem_bind_inv {A B} (m : tem hw A) (f : A -> tem hw B) w w' b :
  (m ≫= f) w = (w', Done b) ->
  exists a w1, m w = (w1, Done a) /\ f a w1 = (w', Done b).
Proof.
  unfold mbind, tem_bind. destruct (m w) as [w1 [a|e]]; [eauto|discriminate].
Qed.

Lemma on_hw_inv {A} (c : hw -> hw * outcome A) w w' r :
  on_hw c w = (w', r) -> c w.1 = (w'.1, r) /\ w'.2 = w.2.
Proof.
  unfold on_hw. destruct (c w.1) as [h r']. by intros [= <- <-].
Qed.

Lemma on_files_inv {A}
    (c : gmap string file -> gmap string file * outcome A) w w' r :
  on_files (hw := hw) c w = (w', r) -> w'.1 = w.1.
Proof.
  unfold on_files. destruct (c w.2) as [σ r']. by intros [= <- <-].
Qed.

(** What one position adds to the local variables. *)
Lemma visit_locals (stage_x stage_y : Qc) (drc : option string) (i j : nat)
    (dx dy : Qc) (st st' : locals) w w' :
  visit stage_x stage_y drc i j dx dy st w = (w', Done st') ->
  stage_shifts st'
  = stage_shifts st ++ match j with O => [] | S _ => [(dx, dy)] end
  /\ length (translations st')
     = (length (translations st) + match j with O => 0 | S _ => 1 end)%nat
  /\ is_Some (last_params st').
Proof.
  unfold visit. intros H.
  apply tem_bind_inv in H as ([] & w1 & _ & H).
  apply tem_bind_inv in H as (x & w2 & _ & H).
  apply tem_bind_inv in H as (y & w3 & _ & H).
  apply tem_bind_inv in H as (z & w4 & _ & H).
  apply tem_bind_inv in H as (im & w5 & _ & H).
  apply tem_bind_inv in H as ([] & w6 & _ & H).
  apply tem_bind_inv in H as (st1 & w7 & Hst & H).
  injection H as _ <-. cbn [stage_shifts translations last_params].
  destruct j as [|j].
  - injection Hst as _ <-. rewrite app_nil_r, Nat.add_0_r. eauto.
  - destruct (last_image st) as [last|]; [|discriminate].
    apply tem_bind_inv in Hst as (tr & w8 & _ & Hst).
    injection Hst as _ <-. cbn [stage_shifts translations].
    rewrite length_app. simpl. eauto.
Qed.

Lemma visit_range_locals (stage_x stage_y : Qc) (drc : option string)
    (i : nat) (rng : list (Qc * Qc)) (j : nat) (st st' : locals) w w' :
  visit_range stage_x stage_y drc i j rng st w = (w', Done st') ->
  stage_shifts st'
  = stage_shifts st ++ match j with O => drop 1 rng | S _ => rng end
  /\ length (translations st')
     = (length (translations st)
        + length (match j with O => drop 1 rng | S _ => rng end))%nat
  /\ (rng <> [] -> is_Some (last_params st')).
Proof.
  revert j st w. induction rng as [|[dx dy] rng IH]; intros j st w H.
  - injection H as _ <-. destruct j; simpl; rewrite app_nil_r, Nat.add_0_r;
      by repeat split.
  - cbn [visit_range] in H.
    apply tem_bind_inv in H as (st1 & w1 & Hv & H).
    apply visit_locals in Hv as (Hs1 & Ht1 & Hp1).
    pose proof (IH _ _ _ H) as (Hs & Ht & Hp).
    rewrite Hs, Ht, Hs1, Ht1. split; [|split].
    + destruct j; simpl; by rewrite <- ?app_assoc, ?app_nil_r.
    + destruct j; simpl; rewrite ?drop_0; lia.
    + intros _. destruct rng as [|q rng]; [|by apply Hp].
      injection H as _ <-. done.
Qed.

Lemma visit_ranges_locals (stage_x stage_y : Qc) (drc : option string)
    (ranges : list (list (Qc * Qc))) (i : nat) (st st' : locals)
    (d d' : gmap nat params) w w' :
  visit_ranges stage_x stage_y drc i ranges st d w = (w', Done (st', d')) ->
  stage_shifts st' = stage_shifts st ++ flat_map (drop 1) ranges
  /\ length (translations st')
     = (length (translations st) + length (flat_map (drop 1) ranges))%nat.
Proof.
  revert i st d w. induction ranges as [|rng ranges IH]; intros i st d w H.
  - injection H as _ <- _. simpl. by rewrite app_nil_r, Nat.add_0_r.
  - cbn [visit_ranges] in H.
    apply tem_bind_inv in H as (st1 & w1 & Hr & H).
    apply tem_bind_inv in H as (p & w2 & _ & H).
    apply visit_range_locals in Hr as (Hs1 & Ht1 & _).
    apply IH in H as (Hs & Ht).
    cbn [stage_shifts translations] in Hs1, Ht1.
    rewrite Hs, Ht, Hs1, Ht1. cbn [flat_map].
    rewrite length_app, app_assoc. split; [done|lia].
Qed.

(** X15: when [calibrate_stage_from_stagepos] returns, the last thing it
    has told the microscope is to put the stage back to the position it
    read at the start. *)
Theorem stagepos_restores_stage (ranges : list (list (Qc * Qc)))
    (plot : bool) (drc : option string) (w w' : hw * gmap string file)
    (r : matrix) :
  calibrate_stage_from_stagepos ranges plot drc w = (w', Done r) ->
  exists (x0 y0 : Qc) (h1 h_scanned : hw),
    stage_xy_get w.1 = (h1, Done (x0, y0))
    /\ stage_xy_set (x0, y0) h_scanned = (w'.1, Done ()).
Proof.
  unfold calibrate_stage_from_stagepos. intros H.
  apply tem_bind_inv in H as ([x0 y0] & w1 & Hxy & H).
  apply tem_bind_inv in H as (g & w2 & _ & H).
  apply tem_bind_inv in H as (m & w3 & _ & H).
  apply tem_bind_inv in H as ([st d] & w4 & _ & H).
  apply tem_bind_inv in H as ([] & w5 & Hset & H).
  apply tem_bind_inv in H as ([r' t] & w6 & Hfit & H).
  apply tem_bind_inv in H as ([] & w7 & Hdump & H).
  apply tem_bind_inv in H as ([] & w8 & Hplot & H).
  injection H as <- _.
  apply on_hw_inv in Hxy as [Hxy _]. apply on_hw_inv in Hset as [Hset _].
  exists x0, y0, w1.1, w4.1. split; [done|].
  assert (w6 = w5) as -> by (by injection Hfit).
  assert (w7.1 = w5.1) as E7.
  { destruct (given drc); [by apply on_files_inv in Hdump|].
    by injection Hdump as <-. }
  assert (w8 = w7) as -> by (destruct plot; by injection Hplot).
  by rewrite E7.
Qed.

(** X16: the stage shifts that go into the fit are the displacements of
    every range but its first, range after range, and each comes with one
    translation from the cross correlation of its image with the one
    before. *)
Theorem stagepos_fits_the_steps (ranges : list (list (Qc * Qc)))
    (plot : bool) (drc : option string) (w w' : hw * gmap string file)
    (r : matrix) :
  calibrate_stage_from_stagepos ranges plot drc w = (w', Done r) ->
  exists (found : list translation) (t : vector),
    fit_affine_transformation (flat_map (drop 1) ranges) found = Done (r, t)
    /\ length found = length (flat_map (drop 1) ranges).
Proof.
  unfold calibrate_stage_from_stagepos. intros H.
  apply tem_bind_inv in H as ([x0 y0] & w1 & Hxy & H).
  apply tem_bind_inv in H as (g & w2 & _ & H).
  apply tem_bind_inv in H as (m & w3 & _ & H).
  apply tem_bind_inv in H as ([st d] & w4 & Hscan & H).
  apply tem_bind_inv in H as ([] & w5 & Hset & H).
  apply tem_bind_inv in H as ([r' t] & w6 & Hfit & H).
  apply tem_bind_inv in H as ([] & w7 & Hdump & H).
  apply tem_bind_inv in H as ([] & w8 & Hplot & H).
  injection H as _ <-.
  apply visit_ranges_locals in Hscan as (Hs & Ht).
  cbn [stage_shifts translations app length Nat.add] in Hs, Ht.
  exists (translations st), t. split; [|done].
  rewrite <- Hs. unfold pure in Hfit. by injection Hfit.
Qed.

(** X17: a first range without positions ends
    [calibrate_stage_from_stagepos] with [UnboundLocalError] for [params],
    after the position, the magnification and the mode have been read and
    before anything is told to the microscope or written. *)
Theorem stagepos_empty_first_range (ranges : list (list (Qc * Qc)))
    (plot : bool) (drc : option string) (h h1 h2 h3 : hw)
    (σ : gmap string file) (xy : Qc * Qc) (g : Z) (m : string) :
  stage_xy_get h = (h1, Done xy) ->
  magnification_get h1 = (h2, Done g) ->
  mode_get h2 = (h3, Done m) ->
  calibrate_stage_from_stagepos ([] :: ranges) plot drc (h, σ)
  = ((h3, σ), Raised (UnboundLocal "params")).
Proof.
  intros Hxy Hg Hm. unfold calibrate_stage_from_stagepos.
  erewrite tem_bind_Done by (by apply on_hw_Done).
  destruct xy as [x0 y0]. cbv beta iota.
  erewrite tem_bind_Done by (by apply on_hw_Done).
  erewrite tem_bind_Done by (by apply on_hw_Done).
  reflexivity.
Qed.

(** X18: a failure at a position leaves the stage there:
    when [getImage] raises at the first position, the exception leaves
    [calibrate_stage_from_stagepos] with the stage where the backlash
    correction put it; the original position is not set and no file is
    written. *)
Theorem stagepos_failure_leaves_stage (dx dy : Qc) (rng : list (Qc * Qc))
    (ranges : list (list (Qc * Qc))) (plot : bool) (drc : option string)
    (h h1 h2 h3 h4 h5 h6 h7 h8 : hw) (σ : gmap string file)
    (x0 y0 x y z : Qc) (g : Z) (m : string) (e : error) :
  stage_xy_get h = (h1, Done (x0, y0)) ->
  magnification_get h1 = (h2, Done g) ->
  mode_get h2 = (h3, Done m) ->
  set_xy_with_backlash_correction (x0 + dx) (y0 + dy) h3 = (h4, Done ()) ->
  stage_x_get h4 = (h5, Done x) ->
  stage_y_get h5 = (h6, Done y) ->
  stage_z_get h6 = (h7, Done z) ->
  getImage h7 = (h8, Raised e) ->
  calibrate_stage_from_stagepos (((dx, dy) :: rng) :: ranges) plot drc (h, σ)
  = ((h8, σ), Raised e).
Proof.
  intros Hxy Hg Hm Hset Hx Hy Hz Him. unfold calibrate_stage_from_stagepos.
  erewrite tem_bind_Done by (by apply on_hw_Done). cbv beta iota.
  erewrite tem_bind_Done by (by apply on_hw_Done).
  erewrite tem_bind_Done by (by apply on_hw_Done).
  apply tem_bind_Raised. cbn [visit_ranges visit_range].
  do 2 apply tem_bind_Raised. unfold visit.
  erewrite tem_bind_Done by (by apply on_hw_Done).
  erewrite tem_bind_Done by (by apply on_hw_Done).
  erewrite tem_bind_Done by (by apply on_hw_Done).
  erewrite tem_bind_Done by (by apply on_hw_Done).
  apply tem_bind_Raised. unfold on_hw. cbn [fst snd]. by rewrite Him.
Qed.

(** X19: the number of positions along one axis: [min_n_step] when that
    many steps reach beyond the stage length, and otherwise at most
    [max_n_step], when that is not negative. *)
Theorem positions_count (step stage_length : Qc) (min_n_step max_n_step : Z)
    (l : list Qc) :
  positions step stage_length min_n_step max_n_step = Done l ->
  (stage_length < step * of_int min_n_step ->
   length l = Z.to_nat min_n_step)
  /\ (~ stage_length < step * of_int min_n_step ->
      (0 <= max_n_step)%Z ->
      (length l <= Z.to_nat max_n_step)%nat).
Proof.
  unfold positions. case_decide as Hlt.
  - intros [= <-]. split; [|by intros []].
    intros _. by rewrite length_map, length_seq.
  - destruct (np_arange 0 stage_length step) as [a|e]; [|done].
    intros [= <-]. split; [done|]. intros _ Hmax.
    unfold upto. rewrite decide_True by done.
    rewrite length_take. lia.
Qed.

End Calibration.

End StageProperties.

(** The properties of the calibration on the microscope for examples:
    mode [mag1] at 100x has the pixel size 1.0, at 200x it has 0.5, and
    300x has none. *)
Lemma calibrate_stage_invalid_pixelsize_witness :
  Stage.calibrate_stage (scope := demo_scope) (Some "mag1") (Some 100%Z)
    (lit 0.5) (of_int 40000) 3 15 false None
    (("lowmag", 50%Z, (0, 0)), ∅)
  = ((("mag1", 100%Z, (0, 0)), ∅),
     Stage.Raised (Stage.InvalidPixelsize "mag1" 100 (lit 1.0))).
Proof.
  refine (proj1 (StageProperties.calibrate_stage_invalid_pixelsize
                   (scope := demo_scope) (Some "mag1") (Some 100%Z)
                   (lit 0.5) (of_int 40000) 3 15 false None
                   ("lowmag", 50%Z, (0, 0)) ("mag1", 50%Z, (0, 0))
                   ("mag1", 100%Z, (0, 0)) ∅ "mag1" 100
                   {["pixelsize" := <[100%Z := lit 1.0]>
                                      (<[200%Z := lit 0.5]> ∅)]}
                   (<[100%Z := lit 1.0]> (<[200%Z := lit 0.5]> ∅))
                   (lit 1.0) _ _ _ _) _ _ _);
    try reflexivity.
  by left.
Defined.

Lemma calibrate_stage_missing_pixelsize_witness :
  Stage.calibrate_stage (scope := demo_scope) (Some "mag1") (Some 300%Z)
    (lit 0.5) (of_int 40000) 3 15 false None
    (("lowmag", 50%Z, (0, 0)), ∅)
  = ((("mag1", 300%Z, (0, 0)), ∅), Stage.Raised Stage.MissingKey).
Proof.
  refine (StageProperties.calibrate_stage_missing_pixelsize
            (scope := demo_scope) (Some "mag1") (Some 300%Z)
            (lit 0.5) (of_int 40000) 3 15 false None
            ("lowmag", 50%Z, (0, 0)) ("mag1", 50%Z, (0, 0))
            ("mag1", 300%Z, (0, 0)) ∅ "mag1" 300 _ _ _ _);
    try reflexivity.
  right. right.
  exists {["pixelsize" := <[100%Z := lit 1.0]> (<[200%Z := lit 0.5]> ∅)]},
         (<[100%Z := lit 1.0]> (<[200%Z := lit 0.5]> ∅)).
  by repeat split.
Defined.

Lemma demo_stagepos :
  Stage.calibrate_stage_from_stagepos (scope := demo_scope) demo_ranges
    false None (("mag1", 200%Z, (of_int 5, of_int 7)), ∅)
  = ((("mag1", 200%Z, (of_int 5, of_int 7)), ∅), Stage.Done 4%nat).
Proof. vm_compute. reflexivity. Qed.

Lemma stagepos_restores_stage_witness :
  Stage.calibrate_stage_from_stagepos (scope := demo_scope) demo_ranges
    false None (("mag1", 200%Z, (of_int 5, of_int 7)), ∅)
  = ((("mag1", 200%Z, (of_int 5, of_int 7)), ∅), Stage.Done 4%nat)
  /\ exists (x0 y0 : Qc) h1 h_scanned,
       Stage.stage_xy_get (Microscope := demo_scope)
         ("mag1", 200%Z, (of_int 5, of_int 7))
       = (h1, Stage.Done (x0, y0))
       /\ Stage.stage_xy_set (Microscope := demo_scope) (x0, y0) h_scanned
          = (("mag1", 200%Z, (of_int 5, of_int 7)), Stage.Done ()).
Proof.
  split; [exact demo_stagepos|].
  exact (StageProperties.stagepos_restores_stage (scope := demo_scope)
           _ _ _ _ _ _ demo_stagepos).
Defined.

Lemma stagepos_fits_the_steps_witness :
  Stage.calibrate_stage_from_stagepos (scope := demo_scope) demo_ranges
    false None (("mag1", 200%Z, (of_int 5, of_int 7)), ∅)
  = ((("mag1", 200%Z, (of_int 5, of_int 7)), ∅), Stage.Done 4%nat)
  /\ exists (found : list (Qc * Qc)) (t : unit),
       Stage.fit_affine_transformation (Microscope := demo_scope)
         (flat_map (drop 1) demo_ranges) found = Stage.Done (4%nat, t)
       /\ length found = length (flat_map (drop 1) demo_ranges).
Proof.
  split; [exact demo_stagepos|].
  exact (StageProperties.stagepos_fits_the_steps (scope := demo_scope)
           _ _ _ _ _ _ demo_stagepos).
Defined.

Lemma stagepos_empty_first_range_witness :
  Stage.calibrate_stage_from_stagepos (scope := demo_scope)
    ([] :: demo_ranges) false None
    (("mag1", 200%Z, (of_int 5, of_int 7)), ∅)
  = ((("mag1", 200%Z, (of_int 5, of_int 7)), ∅),
     Stage.Raised (Stage.UnboundLocal "params")).
Proof.
  by refine (StageProperties.stagepos_empty_first_range (scope := demo_scope)
               demo_ranges false None
               ("mag1", 200%Z, (of_int 5, of_int 7)) _ _ _ ∅ _ _ _ _ _ _).
Defined.

Lemma stagepos_failure_leaves_stage_witness :
  Stage.calibrate_stage_from_stagepos (scope := demo_scope_without_camera)
    [[(of_int 10, of_int 20)]] false (Some "out")
    (("mag1", 200%Z, (of_int 5, of_int 7)), ∅)
  = ((("mag1", 200%Z, (of_int 5 + of_int 10, of_int 7 + of_int 20)), ∅),
     Stage.Raised (Stage.Failure "camera")).
Proof.
  by refine (StageProperties.stagepos_failure_leaves_stage
               (scope := demo_scope_without_camera)
               (of_int 10) (of_int 20) [] [] false (Some "out")
               ("mag1", 200%Z, (of_int 5, of_int 7)) _ _ _ _ _ _ _ _ ∅
               (of_int 5) (of_int 7) _ _ _ _ _ _ _ _ _ _ _ _ _ _).
Defined.

Lemma positions_count_witness :
  Stage.positions (scope := demo_scope) (of_int 10) (of_int 25) 3 15
  = Stage.Done [0; of_int 10; of_int 10 + of_int 10]
  /\ length [0; of_int 10; of_int 10 + of_int 10] = Z.to_nat 3.
Proof.
  assert (H : Stage.positions (scope := demo_scope) (of_int 10) (of_int 25)
                3 15
              = Stage.Done [0; of_int 10; of_int 10 + of_int 10])
    by (vm_compute; repeat f_equal; apply Qc_is_canon; reflexivity).
  split; [exact H|].
  apply (proj1 (StageProperties.positions_count (scope := demo_scope)
                  _ _ _ _ _ H)).
  vm_compute. reflexivity.
Defined.
